(** * Lab-Automation: commands and the heating stage driver

    A shallow embedding of [commands/command.py] (the [Command] base class and
    [CompositeCommand]) and of [devices/heating_stage.py] (the [HeatingStage]
    driver), followed by the properties of the specification that concern
    them.

    Conventions.  A Python method [m(self, args)] that mutates [self] becomes
    a function from the object (or the store) before the call to the object
    after it, paired with what the call returns.  An exception is a value of
    [result].  Python objects that are shared by reference (commands held in a
    composite's list) live in a store indexed by object identity. *)

From Stdlib Require Import String Ascii List ZArith QArith Bool Lia.
Import ListNotations.
Local Close Scope Q_scope.
Local Open Scope nat_scope.
Local Open Scope string_scope.

(** ** Python values and builtins *)

Module Py.

(** The exceptions the modelled code can raise. *)
Inductive exn : Type :=
| AttributeError
| KeyError
| IndexError
| ValueError
| RecursionError.

(** The outcome of a call that may raise. *)
Inductive result (A : Type) : Type :=
| Return (a : A)
| Raise (e : exn).
Arguments Return {A} a.
Arguments Raise {A} e.

(** A Python [float], by its exact value: a finite float is the rational it
    denotes (the sign of a zero is not kept). *)
Inductive pyfloat : Type :=
| Finite (q : Q)
| Infinity (negative : bool)
| NaN.

(** The values that occur as parameters and as payloads of results. *)
Inductive pyval : Type :=
| VStr (s : string)
| VFloat (f : pyfloat)
| VBool (b : bool).

(** [str(x)] for a float [x] (the shortest repr that round-trips) is a
    builtin of the runtime; the model takes it as given. *)
Class FloatRepr := float_repr : pyfloat -> string.

(** [str(v)]. *)
Definition py_str `{FloatRepr} (v : pyval) : string :=
  match v with
  | VStr s => s
  | VFloat f => float_repr f
  | VBool true => "True"
  | VBool false => "False"
  end.

(** [isinstance(v, str)]. *)
Definition isinstance_str (v : pyval) : bool :=
  match v with VStr _ => true | _ => false end.

(** [x > 0.0] on a float. *)
Definition float_gt_zero (f : pyfloat) : bool :=
  match f with
  | Finite q => negb (Qle_bool q 0)
  | Infinity negative => negb negative
  | NaN => false
  end.

(** [v > 0.0] for a numeric [v] ([bool] is a subclass of [int]).  The
    comparison of a [str] with a float raises; the code never reaches it. *)
Definition gt_zero (v : pyval) : bool :=
  match v with
  | VFloat f => float_gt_zero f
  | VBool b => b
  | VStr _ => false
  end.

(** Truth value of an [Optional[bool]]: [None] and [False] are falsy. *)
Definition truthy (b : option bool) : bool :=
  match b with Some true => true | _ => false end.

(** The newline character and the one-character string ["\n"]. *)
Definition newline : string := String "010"%char EmptyString.

(** *** [float(s)] on a string

    [float] strips surrounding whitespace, then accepts an optional sign
    followed by [inf], [infinity] or [nan] in any case, or by a decimal
    number: digits (single underscores allowed between digits), an optional
    fraction and an optional exponent.  Anything else raises ValueError.
    The number is rounded to the nearest binary64, ties to even; beyond the
    largest float it is an infinity.  Strings are read as ASCII, the
    alphabet of the serial protocol: what [float] does with other
    characters is not modelled. *)

(** The whitespace [float] strips: tab, newline, vertical tab, form feed,
    carriage return and space. *)
Definition is_space (c : ascii) : bool :=
  let n := nat_of_ascii c in
  ((9 <=? n)%nat && (n <=? 13)%nat) || (n =? 32)%nat.

(** Whether a string holds ASCII characters only. *)
Definition is_ascii (s : string) : bool :=
  forallb (fun c => (nat_of_ascii c <? 128)%nat) (list_ascii_of_string s).

Definition is_digit (c : ascii) : bool :=
  let n := nat_of_ascii c in (48 <=? n)%nat && (n <=? 57)%nat.

Definition digit_value (c : ascii) : Z := Z.of_nat (nat_of_ascii c) - 48.

Definition lower (c : ascii) : ascii :=
  let n := nat_of_ascii c in
  if (65 <=? n)%nat && (n <=? 90)%nat then ascii_of_nat (n + 32) else c.

Fixpoint lstrip (s : list ascii) : list ascii :=
  match s with
  | c :: s' => if is_space c then lstrip s' else s
  | [] => []
  end.

Definition strip (s : list ascii) : list ascii :=
  rev (lstrip (rev (lstrip s))).

(** The digits of a digit part that continues at [s], and what follows.  An
    underscore belongs to the digit part only when a digit follows it. *)
Fixpoint more_digits (s : list ascii) : list Z * list ascii :=
  match s with
  | c :: s' =>
      if is_digit c then
        let (ds, rest) := more_digits s' in (digit_value c :: ds, rest)
      else if Ascii.eqb c "_" then
        match s' with
        | c' :: _ => if is_digit c' then more_digits s' else ([], s)
        | [] => ([], s)
        end
      else ([], s)
  | [] => ([], [])
  end.

(** [digitpart]: at least one digit. *)
Definition digitpart (s : list ascii) : option (list Z * list ascii) :=
  match s with
  | c :: _ => if is_digit c then Some (more_digits s) else None
  | [] => None
  end.

Definition digits_value (ds : list Z) : Z :=
  fold_left (fun acc d => 10 * acc + d)%Z ds 0%Z.

(** An optional sign; [true] stands for a minus. *)
Definition take_sign (s : list ascii) : bool * list ascii :=
  match s with
  | c :: s' =>
      if Ascii.eqb c "-" then (true, s')
      else if Ascii.eqb c "+" then (false, s')
      else (false, s)
  | [] => (false, [])
  end.

(** [number]: [[digitpart] "." digitpart | digitpart ["."]], as the digits
    before and after the point. *)
Definition number (s : list ascii) : option (list Z * list Z * list ascii) :=
  match digitpart s with
  | Some (int_digits, rest) =>
      match rest with
      | c :: rest' =>
          if Ascii.eqb c "." then
            match digitpart rest' with
            | Some (frac_digits, rest'') => Some (int_digits, frac_digits, rest'')
            | None => Some (int_digits, [], rest')
            end
          else Some (int_digits, [], rest)
      | [] => Some (int_digits, [], [])
      end
  | None =>
      match s with
      | c :: rest' =>
          if Ascii.eqb c "." then
            match digitpart rest' with
            | Some (frac_digits, rest'') => Some ([], frac_digits, rest'')
            | None => None
            end
          else None
      | [] => None
      end
  end.

(** [exponent]: [("e" | "E") [sign] digitpart]; absent when [s] is empty. *)
Definition exponent (s : list ascii) : option Z :=
  match s with
  | [] => Some 0%Z
  | c :: s' =>
      if Ascii.eqb (lower c) "e" then
        let (negative, s'') := take_sign s' in
        match digitpart s'' with
        | Some (ds, []) =>
            Some (if negative then (- digits_value ds)%Z else digits_value ds)
        | _ => None
        end
      else None
  end.

Definition floatnumber (s : list ascii) : option Q :=
  match number s with
  | Some (int_digits, frac_digits, rest) =>
      match exponent rest with
      | Some e =>
          let mantissa := digits_value (int_digits ++ frac_digits)%list in
          let scale := (e - Z.of_nat (length frac_digits))%Z in
          Some (inject_Z mantissa * Qpower (inject_Z 10) scale)%Q
      | None => None
      end
  | None => None
  end.

(** The integer nearest to [a / b], ties to even, for [b] positive. *)
Definition round_half_even (a b : Z) : Z :=
  let q := (a / b)%Z in
  let r := (a mod b)%Z in
  if (2 * r <? b)%Z then q
  else if (b <? 2 * r)%Z then (q + 1)%Z
  else if Z.even q then q else (q + 1)%Z.

(** [n / d] divided by [2 ^ e], as a fraction of integers. *)
Definition scaled (n d e : Z) : Z * Z :=
  if (0 <=? e)%Z then (n, d * 2 ^ e)%Z else (n * 2 ^ (- e), d)%Z.

(** The binary64 nearest to the rational [n / d], for [n] and [d] positive:
    53 bits of precision, the exponent of the last bit between -1074 (the
    subnormal floats) and 971, and an infinity beyond. *)
Definition binary64 (negative : bool) (n d : Z) : pyfloat :=
  let k := (Z.log2 n - Z.log2 d)%Z in
  let floor_log2 := let (a, b) := scaled n d k in if (b <=? a)%Z then k else (k - 1)%Z in
  let e := Z.max (-1074) (floor_log2 - 52) in
  let (a, b) := scaled n d e in
  let m := round_half_even a b in
  if (0 <=? e)%Z && (2 ^ 1024 <=? m * 2 ^ e)%Z then Infinity negative
  else
    let magnitude :=
      if (0 <=? e)%Z then inject_Z (m * 2 ^ e) else Qred (Qmake m (Z.to_pos (2 ^ (- e)))) in
    Finite (if negative then (- magnitude)%Q else magnitude).

(** The float a decimal number with the exact value [q] is read as. *)
Definition float_of_decimal (negative : bool) (q : Q) : pyfloat :=
  if (Qnum q <=? 0)%Z then Finite 0 else binary64 negative (Qnum q) (Zpos (Qden q)).

(** [float(s)]: [None] stands for ValueError. *)
Definition py_float (s : string) : option pyfloat :=
  let (negative, body) := take_sign (strip (list_ascii_of_string s)) in
  let word := string_of_list_ascii (map lower body) in
  if (word =? "inf") || (word =? "infinity") then Some (Infinity negative)
  else if word =? "nan" then Some NaN
  else
    match floatnumber body with
    | Some q => Some (float_of_decimal negative q)
    | None => None
    end.

(** [sub in s] on strings. *)
Fixpoint contains (sub s : string) : bool :=
  prefix sub s ||
  match s with
  | String _ s' => contains sub s'
  | EmptyString => false
  end.

(** *** Lists indexed the Python way *)



(** [l.insert(index, x)] for an index that fits a C [ssize_t]: a negative
    index counts from the end, and an index outside the list is clamped to
    its ends.  For an index that does not fit, [list.insert] raises
    OverflowError, which this function does not show. *)
Definition list_insert {A : Type} (index : Z) (x : A) (l : list A) : list A :=
  let len := Z.of_nat (length l) in
  let i := if (index <? 0)%Z then Z.max 0 (index + len) else Z.min index len in
  (firstn (Z.to_nat i) l ++ x :: skipn (Z.to_nat i) l)%list.

(** [del l[index]]: a negative index counts from the end; an index outside
    the list raises IndexError. *)
Definition list_del {A : Type} (index : Z) (l : list A) : result (list A) :=
  let len := Z.of_nat (length l) in
  let i := if (index <? 0)%Z then (index + len)%Z else index in
  if (i <? 0)%Z || (len <=? i)%Z then Raise IndexError
  else Return (firstn (Z.to_nat i) l ++ skipn (S (Z.to_nat i)) l)%list.

End Py.

(** ** The heating stage driver ([devices/heating_stage.py]) *)

Module Devices.
Import Py.

(** The [serial.Serial] port a device owns: whether it is open, the byte
    strings written to it so far (oldest first), and the input not yet read,
    whose shape belongs to the transport. *)
Record Serial (Inbox : Type) : Type := mkSerial {
  is_open : bool;
  written : list string;
  inbox : Inbox
}.
Arguments mkSerial {Inbox}.
Arguments is_open {Inbox}.
Arguments written {Inbox}.
Arguments inbox {Inbox}.

(** [ser.write(data)]. *)
Definition write {Inbox : Type} (data : string) (s : Serial Inbox) : Serial Inbox :=
  mkSerial (is_open s) (written s ++ [data])%list (inbox s).

(** The interface of the parent class [ArduinoSerialDevice], whose file
    ([devices/device.py]) is not part of the sources: the handshake
    [check_ack_succ(ack_timeout, succ_timeout)], with [None] for an argument
    left at its default, and [parse_equal_sign(text)]. *)
Class ArduinoSerialDevice : Type := {
  Inbox : Type;
  check_ack_succ :
    option pyfloat -> option pyfloat -> Serial Inbox -> Serial Inbox * (bool * string);
  parse_equal_sign : string -> bool * string
}.

Section HeatingStage.
Context `{FloatRepr} `{ArduinoSerialDevice}.

(** The attributes of a [HeatingStage] object. *)
Record HeatingStage : Type := mkHeatingStage {
  name : string;
  _port : string;
  ser : Serial Inbox;
  _is_initialized : bool;
  _heating_timeout : pyfloat
}.

Definition set_ser (s : Serial Inbox) (self : HeatingStage) : HeatingStage :=
  mkHeatingStage (name self) (_port self) s (_is_initialized self) (_heating_timeout self).

Definition set_is_initialized (b : bool) (self : HeatingStage) : HeatingStage :=
  mkHeatingStage (name self) (_port self) (ser self) b (_heating_timeout self).

(** [self.ser.write(command.encode('ascii'))] followed by
    [self.check_ack_succ(ack_timeout, succ_timeout)]. *)
Definition send (command : string) (ack_timeout succ_timeout : option pyfloat)
    (self : HeatingStage) : HeatingStage * (bool * string) :=
  let (s, r) := check_ack_succ ack_timeout succ_timeout (write command (ser self)) in
  (set_ser s self, r).

Definition not_open (self : HeatingStage) : string :=
  "Serial port " ++ _port self ++ " is not open. ".

Definition set_settemp (temp : pyfloat) (self : HeatingStage)
    : HeatingStage * (bool * string) :=
  if negb (is_open (ser self)) then (self, (false, not_open self))
  else if negb (_is_initialized self) then
    (self, (false, "Heating stage is not initialized."))
  else send (">set Ts " ++ float_repr temp ++ newline) None None self.

Definition set_temp (temp : pyfloat) (self : HeatingStage)
    : HeatingStage * (bool * string) :=
  if negb (is_open (ser self)) then (self, (false, not_open self))
  else if negb (_is_initialized self) then
    (self, (false, "Heating stage is not initialized."))
  else send (">set T " ++ float_repr temp ++ newline)
            (Some (Finite 1)) (Some (_heating_timeout self)) self.

Definition pid_on (self : HeatingStage) : HeatingStage * (bool * string) :=
  if negb (is_open (ser self)) then (self, (false, not_open self))
  else if negb (_is_initialized self) then
    (self, (false, "Heating stage is not initialized."))
  else send (">pidon" ++ newline) None None self.

Definition pid_off (self : HeatingStage) : HeatingStage * (bool * string) :=
  if negb (is_open (ser self)) then (self, (false, not_open self))
  else send (">pidoff" ++ newline) None None self.

Definition is_pid_on (self : HeatingStage) : HeatingStage * (bool * pyval) :=
  if negb (is_open (ser self)) then (self, (false, VStr (not_open self)))
  else
    let '(self, (was_successful, comment)) := send (">pr pid" ++ newline) None None self in
    if negb was_successful then (self, (was_successful, VStr comment))
    else
      let (has_on_off, pid_state) := parse_equal_sign comment in
      if negb has_on_off then
        (self, (has_on_off, VStr "Message from device did not contain PID state."))
      else
        let is_on := if pid_state =? "ON" then true else false in
        (self, (true, VBool is_on)).

(** [temperature] is the one method with a call that can raise:
    [float(temperature_str)]. *)
Definition temperature (self : HeatingStage) : HeatingStage * result (bool * pyval) :=
  if negb (is_open (ser self)) then (self, Return (false, VStr (not_open self)))
  else
    let '(self, (was_successful, comment)) := send (">pr T" ++ newline) None None self in
    if negb was_successful then (self, Return (was_successful, VStr comment))
    else
      let (has_temperature, temperature_str) := parse_equal_sign comment in
      if negb has_temperature then
        (self, Return (has_temperature,
                       VStr "Message from device did not contain temperature."))
      else
        match py_float temperature_str with
        | Some t => (self, Return (true, VFloat t))
        | None => (self, Raise ValueError)
        end.

Definition initialize (self : HeatingStage) : HeatingStage * (bool * string) :=
  let self := set_is_initialized true self in
  let '(self, (was_set, comment)) := set_settemp (Finite 26) self in
  if negb was_set then (set_is_initialized false self, (was_set, comment))
  else
    let '(self, (was_turned_on, comment)) := pid_on self in
    if negb was_turned_on then
      (set_is_initialized false self, (was_turned_on, comment))
    else
      (self, (true, "Heating stage successfully initialized by setting to 26 C and turning PID ON.")).

Definition deinitialize (reset_init_flag : bool) (self : HeatingStage)
    : HeatingStage * (bool * string) :=
  let self := set_is_initialized true self in
  let '(self, (was_set, comment)) := set_settemp (Finite 24) self in
  if negb was_set then (set_is_initialized false self, (was_set, comment))
  else
    let '(self, (was_turned_off, comment)) := pid_off self in
    if negb was_turned_off then
      (set_is_initialized false self, (was_turned_off, comment))
    else
      let self := if reset_init_flag then set_is_initialized false self else self in
      (self, (true, "Heating stage successfully deinitialized by setting to 24 C and turning PID OFF.")).

End HeatingStage.

(** The operational methods, for statements that range over them.  The two
    queries return a payload that is not a string; [call] gives every method
    the same result shape, with an exception as [Raise]. *)
Inductive method : Type :=
| m_set_settemp (temp : pyfloat)
| m_set_temp (temp : pyfloat)
| m_pid_on
| m_pid_off
| m_is_pid_on
| m_temperature.

Definition call `{FloatRepr} `{ArduinoSerialDevice} (m : method) (self : HeatingStage)
    : HeatingStage * result (bool * pyval) :=
  let lift (r : HeatingStage * (bool * string)) :=
    (fst r, Return (fst (snd r), VStr (snd (snd r)))) in
  match m with
  | m_set_settemp temp => lift (set_settemp temp self)
  | m_set_temp temp => lift (set_temp temp self)
  | m_pid_on => lift (pid_on self)
  | m_pid_off => lift (pid_off self)
  | m_is_pid_on => let (self', r) := is_pid_on self in (self', Return r)
  | m_temperature => temperature self
  end.

(** The methods that refuse to run on a stage that is not initialized. *)
Definition needs_initialization (m : method) : bool :=
  match m with
  | m_set_settemp _ | m_set_temp _ | m_pid_on => true
  | m_pid_off | m_is_pid_on | m_temperature => false
  end.

(** The line a method writes to the port before its handshake. *)
Definition command_line `{FloatRepr} (m : method) : string :=
  match m with
  | m_set_settemp temp => ">set Ts " ++ float_repr temp ++ newline
  | m_set_temp temp => ">set T " ++ float_repr temp ++ newline
  | m_pid_on => ">pidon" ++ newline
  | m_pid_off => ">pidoff" ++ newline
  | m_is_pid_on => ">pr pid" ++ newline
  | m_temperature => ">pr T" ++ newline
  end.

(** What a two-step operation writes: the first line, and the second when
    the first step succeeded. *)
Definition two_step_lines `{FloatRepr} (first second : method) (first_ok : bool)
    : list string :=
  command_line first :: (if first_ok then [command_line second] else []).

(** A handshake that only reads from the port: it neither closes it nor
    writes to it. *)
Definition reads_only `{ArduinoSerialDevice} : Prop :=
  forall (ack_timeout succ_timeout : option pyfloat) (s : Serial Inbox),
    is_open (fst (check_ack_succ ack_timeout succ_timeout s)) = is_open s
    /\ written (fst (check_ack_succ ack_timeout succ_timeout s)) = written s.

(** Modelled from the spec: [parse_equal_sign] of the absent
    [devices/device.py].  It extracts the value of a [key=value] fragment,
    here what follows the first equal sign, and answers [(False, "")] when
    the text has no equal sign. *)
Fixpoint after_equal_sign (text : string) : option string :=
  match text with
  | EmptyString => None
  | String c rest => if Ascii.eqb c "=" then Some rest else after_equal_sign rest
  end.

Definition parse_equal_sign_spec (text : string) : bool * string :=
  match after_equal_sign text with
  | Some value => (true, value)
  | None => (false, EmptyString)
  end.

(** Modelled from the spec: the handshake of the absent [devices/device.py],
    reduced to its outcome.  The unread input is the list of outcomes the
    firmware will give to the coming handshakes; a handshake takes the next
    one, and times out when none is left.  It writes nothing. *)
Definition scripted_check_ack_succ (ack_timeout succ_timeout : option pyfloat)
    (s : Serial (list (bool * string))) : Serial (list (bool * string)) * (bool * string) :=
  match inbox s with
  | outcome :: rest => (mkSerial (is_open s) (written s) rest, outcome)
  | [] => (s, (false, "Timed out waiting for the device."))
  end.

#[export] Instance ScriptedDevice : ArduinoSerialDevice := {
  Inbox := list (bool * string);
  check_ack_succ := scripted_check_ack_succ;
  parse_equal_sign := parse_equal_sign_spec
}.

(** A stand-in for [str] on floats, for the examples only: fixed notation
    with at least one and at most 17 fraction digits, which is what Python
    prints for the short decimals the examples use (26.0, 2.5, 30.0).  It
    is not [str] elsewhere: Python prints the shortest digits that read
    back as the same float, and uses exponent notation from 1e16 on and
    below 1e-4.  No theorem depends on it; the theorems hold for every
    [FloatRepr]. *)
Definition digit_string (d : Z) : string :=
  String (ascii_of_nat (48 + Z.to_nat d)) EmptyString.

Fixpoint decimal_digits (fuel : nat) (n : Z) : string :=
  match fuel with
  | O => EmptyString
  | S fuel' =>
      if (n <? 10)%Z then digit_string n
      else decimal_digits fuel' (n / 10) ++ digit_string (n mod 10)
  end.

Fixpoint fraction_digits (fuel : nat) (r den : Z) : string :=
  match fuel with
  | O => EmptyString
  | S fuel' =>
      let r10 := (10 * r)%Z in
      digit_string (r10 / den) ++
      (if (r10 mod den =? 0)%Z then EmptyString
       else fraction_digits fuel' (r10 mod den) den)
  end.

Definition decimal_repr (f : pyfloat) : string :=
  match f with
  | Finite q =>
      let n := Z.abs (Qnum q) in
      let den := Zpos (Qden q) in
      (if (Qnum q <? 0)%Z then "-" else "") ++
      decimal_digits (S (Z.to_nat (Z.log2 (n / den)))) (n / den) ++ "." ++
      fraction_digits 17 (n mod den) den
  | Infinity negative => if negative then "-inf" else "inf"
  | NaN => "nan"
  end.

#[export] Instance DecimalRepr : FloatRepr := decimal_repr.

End Devices.

(** ** Commands ([commands/command.py]) *)

Module Commands.
Import Py.

(** The identity of a command object.  Commands are shared by reference: a
    composite's list holds identities, the same command may stand in several
    lists or several times in one, and a composite may hold itself. *)
Definition ref : Type := nat.

(** The state of the receivers (devices) that concrete commands act on. *)
Class Receivers : Type := World : Type.

(** *** Dictionaries in insertion order *)

Definition dict : Type := list (string * pyval).

(** [d[key]]; [None] stands for KeyError. *)
Fixpoint dict_get (key : string) (d : dict) : option pyval :=
  match d with
  | [] => None
  | (k, v) :: d' => if k =? key then Some v else dict_get key d'
  end.

(** [d[key] = value]: a present key keeps its place, a new one goes last. *)
Fixpoint dict_set (key : string) (value : pyval) (d : dict) : dict :=
  match d with
  | [] => [(key, value)]
  | (k, v) :: d' =>
      if k =? key then (key, value) :: d' else (k, v) :: dict_set key value d'
  end.

Section Commands.
Context `{FloatRepr} `{Receivers}.

(** What the class of a command gives it.  A concrete command is bound to
    its [_receiver] and calls one of its operations, which acts on the state
    of the receivers.  A [CompositeCommand] has a [_command_list], [None]
    while the object has no such attribute. *)
Inductive kind : Type :=
| Concrete (operation : World -> World * (bool * string))
| Composite (_command_list : option (list ref)).

(** The attributes of a command object; [_name] is [None] until the name
    getter has assigned it. *)
Record command : Type := mkCommand {
  class_name : string;
  doc : option string;
  _params : dict;
  _was_successful : option bool;
  _result_message : option string;
  _name : option string;
  body : kind
}.

Definition set_was_successful (b : option bool) (c : command) : command :=
  mkCommand (class_name c) (doc c) (_params c) b (_result_message c) (_name c) (body c).

Definition set_result_message (m : option string) (c : command) : command :=
  mkCommand (class_name c) (doc c) (_params c) (_was_successful c) m (_name c) (body c).

Definition set_name (n : string) (c : command) : command :=
  mkCommand (class_name c) (doc c) (_params c) (_was_successful c) (_result_message c)
            (Some n) (body c).

(** [self._params[key] = value], as the constructor of a concrete class does
    for the parameters of its own. *)
Definition set_param (key : string) (value : pyval) (c : command) : command :=
  mkCommand (class_name c) (doc c) (dict_set key value (_params c)) (_was_successful c)
            (_result_message c) (_name c) (body c).

Definition set_command_list (l : list ref) (c : command) : command :=
  mkCommand (class_name c) (doc c) (_params c) (_was_successful c) (_result_message c)
            (_name c) (Composite (Some l)).

(** [Command.__init__(self, receiver, delay)], called by the constructor of
    a concrete class [cls] bound to the receiver named [receiver_name]. *)
Definition Command_init (cls : string) (docstring : option string)
    (receiver_name : string) (delay : pyval)
    (operation : World -> World * (bool * string)) : command :=
  mkCommand cls docstring
            (dict_set "delay" delay (dict_set "receiver_name" (VStr receiver_name) []))
            None None None (Concrete operation).

(** [CompositeCommand.__init__(self, delay)].  The assignment of
    [_command_list] is commented out in the source. *)
Definition CompositeCommand_init (delay : pyval) : command :=
  mkCommand "CompositeCommand"
            (Some "A composite command which contains multiple commands but can act like a single command that executes all contained commands sequentially.")
            (dict_set "delay" delay [])
            None None None (Composite None).

(** The object store and the state of a run. *)
Definition store : Type := ref -> command.

Definition update (r : ref) (c : command) (h : store) : store :=
  fun r' => if Nat.eqb r' r then c else h r'.

Record state : Type := mkState {
  world : World;
  objects : store
}.

Definition modify (r : ref) (f : command -> command) (s : state) : state :=
  mkState (world s) (update r (f (objects s r)) (objects s)).

(** *** The name getters *)

(** One turn of the loop of [Command.name]. *)
Definition name_step (acc : string) (item : string * pyval) : string :=
  let (key, value) := item in
  if negb (key =? "delay") then acc ++ " " ++ key ++ "=" ++ py_str value else acc.

(** [Command.name]: the string it returns, or KeyError. *)
Definition Command_name (c : command) : result string :=
  let n := fold_left name_step (_params c) (class_name c) in
  match dict_get "delay" (_params c) with
  | None => Raise KeyError
  | Some delay =>
      if isinstance_str delay then Return (n ++ " " ++ "delay=" ++ py_str delay)
      else if gt_zero delay then Return (n ++ " " ++ "delay=" ++ py_str delay)
      else Return n
  end.

(** The value [Command.name] leaves in [self._name]: on KeyError, what the
    loop had built. *)
Definition Command_name_attr (c : command) : string :=
  match Command_name c with
  | Return n => n
  | Raise _ => fold_left name_step (_params c) (class_name c)
  end.

(** The loop of [CompositeCommand.name] over the commands that remain, with
    [acc] the value of [self._name] read at the start of the turn and [get]
    the name getter of a sub-command. *)
Fixpoint name_commands (get : ref -> store -> store * result string)
    (self : ref) (l : list ref) (acc : string) (h : store) : store * result string :=
  match l with
  | [] => (h, Return acc)
  | c :: rest =>
      match get c h with
      | (h1, Return n) =>
          let acc' := acc ++ " " ++ n ++ ";" in
          name_commands get self rest acc' (update self (set_name acc' (h1 self)) h1)
      | (h1, Raise e) => (h1, Raise e)
      end
  end.

(** [command.name], dispatched on the class, with [limit] nested calls left
    before Python's recursion limit: a call beyond it raises
    RecursionError. *)
Fixpoint name (limit : nat) (self : ref) (h : store) : store * result string :=
  match limit with
  | O => (h, Raise RecursionError)
  | S limit' =>
      match body (h self) with
      | Concrete _ =>
          (update self (set_name (Command_name_attr (h self)) (h self)) h,
           Command_name (h self))
      | Composite l =>
          let h0 := update self (set_name "CompositeCommand:" (h self)) h in
          match l with
          | None => (h0, Raise AttributeError)
          | Some l => name_commands (name limit') self l "CompositeCommand:" h0
          end
      end
  end.

(** *** [add_command] and [remove_command] *)

Definition add_command (self : ref) (cmd : ref) (index : option Z) (h : store)
    : store * result unit :=
  match body (h self) with
  | Composite (Some l) =>
      match index with
      | None => (update self (set_command_list (l ++ [cmd])%list (h self)) h, Return tt)
      | Some i => (update self (set_command_list (list_insert i cmd l) (h self)) h, Return tt)
      end
  | _ => (h, Raise AttributeError)
  end.

Definition remove_command (self : ref) (index : option Z) (h : store)
    : store * result unit :=
  match body (h self) with
  | Composite (Some l) =>
      let index := match index with None => (-1)%Z | Some i => i end in
      match list_del index l with
      | Return l' => (update self (set_command_list l' (h self)) h, Return tt)
      | Raise e => (h, Raise e)
      end
  | _ => (h, Raise AttributeError)
  end.

(** *** [execute] *)

(** The two assignments both branches of the loop make:
    [self._was_successful = command.was_successful] and then
    [self._result_message = command.result_message]. *)
Definition copy_result (self : ref) (cmd : ref) (s : state) : state :=
  let s1 := modify self (set_was_successful (_was_successful (objects s cmd))) s in
  modify self (set_result_message (_result_message (objects s1 cmd))) s1.

(** Modelled from the spec: [execute] of a concrete command.  The concrete
    classes are not in the sources, where [Command.execute] is abstract; by
    the specification a concrete command calls exactly one operation of its
    receiver and copies the [(bool, message)] it returns into its own
    state. *)
Definition execute_concrete (operation : World -> World * (bool * string))
    (self : ref) (s : state) : state * result unit :=
  let (w, r) := operation (world s) in
  let s1 := mkState w (objects s) in
  (modify self (set_result_message (Some (snd r)))
     (modify self (set_was_successful (Some (fst r))) s1),
   Return tt).

(** The loop of [CompositeCommand.execute] over the commands that remain;
    [exec] is [execute] on a sub-command.  No [execute] changes a list, so
    the loop runs over the list as it was when the loop began. *)
Fixpoint execute_commands (exec : ref -> state -> state * result unit)
    (self : ref) (l : list ref) (s : state) : state * result unit :=
  match l with
  | [] => (s, Return tt)
  | cmd :: rest =>
      match exec cmd s with
      | (s1, Return _) =>
          if negb (truthy (_was_successful (objects s1 cmd))) then
            (copy_result self cmd s1, Return tt)
          else
            execute_commands exec self rest (copy_result self cmd s1)
      | (s1, Raise e) => (s1, Raise e)
      end
  end.

(** [command.execute()], dispatched on the class, with [limit] nested calls
    left before Python's recursion limit: a call beyond it raises
    RecursionError, which is how the unbounded recursion of a composite that
    holds itself ends. *)
Fixpoint execute (limit : nat) (self : ref) (s : state) : state * result unit :=
  match limit with
  | O => (s, Raise RecursionError)
  | S limit' =>
      match body (objects s self) with
      | Concrete operation => execute_concrete operation self s
      | Composite None => (s, Raise AttributeError)
      | Composite (Some l) => execute_commands (execute limit') self l s
      end
  end.

(** *** The public interface of a command *)

Inductive request : Type :=
| call_add_command (cmd : ref) (index : option Z)
| call_remove_command (index : option Z)
| call_execute
| get_name
| get_description
| get_was_successful
| get_result_message.

Inductive answer : Type :=
| ANone
| AStr (s : option string)
| ABool (b : option bool).

Definition lift_store (w : World) (r : store * result unit) : state * result answer :=
  (mkState w (fst r),
   match snd r with Return _ => Return ANone | Raise e => Raise e end).

(** One use of the public interface of the command [self].  A concrete
    command has no [add_command] or [remove_command]. *)
Definition perform (limit : nat) (q : request) (self : ref) (s : state)
    : state * result answer :=
  match q with
  | call_add_command cmd index =>
      lift_store (world s) (add_command self cmd index (objects s))
  | call_remove_command index =>
      lift_store (world s) (remove_command self index (objects s))
  | call_execute =>
      match execute limit self s with
      | (s', Return _) => (s', Return ANone)
      | (s', Raise e) => (s', Raise e)
      end
  | get_name =>
      match name limit self (objects s) with
      | (h, Return n) => (mkState (world s) h, Return (AStr (Some n)))
      | (h, Raise e) => (mkState (world s) h, Raise e)
      end
  | get_description => (s, Return (AStr (doc (objects s self))))
  | get_was_successful => (s, Return (ABool (_was_successful (objects s self))))
  | get_result_message => (s, Return (AStr (_result_message (objects s self))))
  end.

(** A caller that uses the interface of several commands in turn and goes on
    after an exception. *)
Fixpoint perform_all (limit : nat) (calls : list (ref * request)) (s : state) : state :=
  match calls with
  | [] => s
  | (target, q) :: rest => perform_all limit rest (fst (perform limit q target s))
  end.

(** The command [r] is a concrete command, or a composite with a non-empty
    list of such commands, nested at most [depth] deep. *)
Fixpoint grounded (depth : nat) (h : store) (r : ref) : bool :=
  match body (h r) with
  | Concrete _ => true
  | Composite None => false
  | Composite (Some l) =>
      match depth with
      | O => false
      | S depth' => negb (Nat.eqb (length l) 0) && forallb (grounded depth' h) l
      end
  end.

(** *** Notions the properties are stated with *)

(** [attempted exec self cmds s s']: started in [s], the loop of [execute]
    in the composite [self] called [exec] on exactly the commands [cmds], in
    this order; every call returned, every command but the last was found
    successful, and the loop copied each outcome, ending in [s']. *)
Inductive attempted (exec : ref -> state -> state * result unit) (self : ref)
    : list ref -> state -> state -> Prop :=
| attempted_last (cmd : ref) (s s1 : state) :
    exec cmd s = (s1, Return tt) ->
    attempted exec self [cmd] s (copy_result self cmd s1)
| attempted_next (cmd : ref) (cmds : list ref) (s s1 s' : state) :
    exec cmd s = (s1, Return tt) ->
    truthy (_was_successful (objects s1 cmd)) = true ->
    attempted exec self cmds (copy_result self cmd s1) s' ->
    attempted exec self (cmd :: cmds) s s'.

(** The command [r] has an outcome: a boolean and a message. *)
Definition has_outcome (s : state) (r : ref) : Prop :=
  exists (b : bool) (m : string),
    _was_successful (objects s r) = Some b /\ _result_message (objects s r) = Some m.

(** How a parameter shows in a name. *)
Definition fragment (item : string * pyval) : string :=
  " " ++ fst item ++ "=" ++ py_str (snd item).

Definition is_delay (item : string * pyval) : bool := fst item =? "delay".

(** The concatenation of strings. *)
Definition join (l : list string) : string := fold_right append "" l.

(** The parameters other than [delay], as they show in a name. *)
Definition other_fragments (d : dict) : string :=
  join (map fragment (filter (fun item => negb (is_delay item)) d)).

(** Whether a value of [delay] shows in a name. *)
Definition delay_shown (delay : pyval) : bool :=
  isinstance_str delay || gt_zero delay.

(** How a sub-command shows in the name of a composite. *)
Definition listed_name (h : store) (c : ref) : string :=
  " " ++ Command_name_attr (h c) ++ ";".

(** A sub-command the composite name can list: a concrete command with a
    [delay] parameter. *)
Definition listable (h : store) (c : ref) : Prop :=
  (exists operation, body (h c) = Concrete operation)
  /\ dict_get "delay" (_params (h c)) <> None.

(** Two versions of a command that differ at most in the outcome. *)
Definition same_but_outcome (c c' : command) : Prop :=
  class_name c = class_name c' /\ doc c = doc c' /\ _params c = _params c'
  /\ _name c = _name c' /\ body c = body c'.

(** Two versions of a command that differ at most in the cached name. *)
Definition same_but_name (c c' : command) : Prop :=
  class_name c = class_name c' /\ doc c = doc c' /\ _params c = _params c'
  /\ _was_successful c = _was_successful c'
  /\ _result_message c = _result_message c' /\ body c = body c'.

End Commands.

End Commands.

(** ** Example objects

    A heating stage on a scripted port, and commands bound to it. *)

Module Examples.
Import Py Devices Commands.

(** An open port with nothing written and the given outcomes to come. *)
Definition port (outcomes : list (bool * string)) : Serial (list (bool * string)) :=
  mkSerial true [] outcomes.

Definition stage (initialized : bool) (outcomes : list (bool * string)) : HeatingStage :=
  mkHeatingStage "stage" "COM3" (port outcomes) initialized (Finite 600).

(** The commands of the examples act on one heating stage. *)
#[export] Instance OneStage : Receivers := HeatingStage.

(** Concrete commands in the way of the repository's, each a call of one
    method of the stage. *)
Definition SetTemp (temp : Q) (delay : pyval) : command :=
  set_param "temp" (VFloat (Finite temp))
    (Command_init "HeatingStageSetTemp" None "stage" delay (set_temp (Finite temp))).

Definition PidOn (delay : pyval) : command :=
  Command_init "HeatingStagePidOn" None "stage" delay pid_on.

Definition PidOff (delay : pyval) : command :=
  Command_init "HeatingStagePidOff" None "stage" delay pid_off.

(** A store holding the given commands at 0, 1, ... and fresh composites
    elsewhere. *)
Definition store_of (cs : list command) : store :=
  fun r => nth r cs (CompositeCommand_init (VFloat (Finite 0))).

Definition no_delay : pyval := VFloat (Finite 0).

(** The scenario of the specification: a composite (at 3) of three commands
    of which the first succeeds and the second fails with "overheat". *)
Definition scenario : state :=
  mkState (stage true [(true, "ok"); (false, "overheat"); (true, "ok")])
          (store_of [PidOn no_delay; SetTemp 30 no_delay; PidOff no_delay;
                     set_command_list [0; 1; 2] (CompositeCommand_init no_delay)]).

Definition scenario_end : state := fst (execute 2 3 scenario).

(** The list of the composite of the scenario after calls on its store. *)
Definition list_of (h : store) : kind := body (h 3).

(** A stage that is not initialized, next to a composite as constructed (at
    0) and one that was given an empty list (at 1). *)
Definition bare : state :=
  mkState (stage false [])
          (store_of [CompositeCommand_init no_delay;
                     set_command_list [] (CompositeCommand_init no_delay)]).

(** Two commands that succeed, in a composite (at 2) inside a composite (at
    3). *)
(** A stage whose port is closed. *)
Definition unplugged : HeatingStage :=
  mkHeatingStage "stage" "COM3" (mkSerial false [] []) true (Finite 600).

(** A composite (at 0) that holds itself. *)
Definition looped : state :=
  mkState (stage true [])
          (store_of [set_command_list [0; 1] (CompositeCommand_init no_delay);
                     PidOn no_delay]).

Definition nested : state :=
  mkState (stage true [(true, "ok"); (true, "done")])
          (store_of [PidOn no_delay; PidOff no_delay;
                     set_command_list [0; 1] (CompositeCommand_init no_delay);
                     set_command_list [2] (CompositeCommand_init no_delay)]).

End Examples.

Import Py Devices Commands Examples.

(** ** Properties of the heating stage *)

Section HeatingStageProperties.
Context `{FloatRepr} `{ArduinoSerialDevice}.

Lemma send_is_initialized (command : string) (a b : option pyfloat) (d : HeatingStage) :
  _is_initialized (fst (send command a b d)) = _is_initialized d.
Proof.
  unfold send. destruct (check_ack_succ a b (write command (ser d))) as [s r].
  reflexivity.
Qed.

Lemma send_set_is_initialized (command : string) (a b : option pyfloat)
    (flag : bool) (d : HeatingStage) :
  send command a b (set_is_initialized flag d)
  = (set_is_initialized flag (fst (send command a b d)), snd (send command a b d)).
Proof.
  unfold send. cbn [ser set_is_initialized].
  destruct (check_ack_succ a b (write command (ser d))) as [s r].
  reflexivity.
Qed.

Lemma set_settemp_is_initialized (temp : pyfloat) (d : HeatingStage) :
  _is_initialized (fst (set_settemp temp d)) = _is_initialized d.
Proof.
  unfold set_settemp.
  destruct (negb (is_open (ser d))); [reflexivity|].
  destruct (negb (_is_initialized d)); [reflexivity|].
  apply send_is_initialized.
Qed.

Lemma pid_on_is_initialized (d : HeatingStage) :
  _is_initialized (fst (pid_on d)) = _is_initialized d.
Proof.
  unfold pid_on.
  destruct (negb (is_open (ser d))); [reflexivity|].
  destruct (negb (_is_initialized d)); [reflexivity|].
  apply send_is_initialized.
Qed.

Lemma pid_off_is_initialized (d : HeatingStage) :
  _is_initialized (fst (pid_off d)) = _is_initialized d.
Proof.
  unfold pid_off.
  destruct (negb (is_open (ser d))); [reflexivity|].
  apply send_is_initialized.
Qed.

Lemma send_written (command : string) (a b : option pyfloat) (d : HeatingStage) :
  reads_only ->
  is_open (ser (fst (send command a b d))) = is_open (ser d)
  /\ written (ser (fst (send command a b d))) = (written (ser d) ++ [command])%list.
Proof.
  intros Hread. unfold send.
  destruct (Hread a b (write command (ser d))) as [Ho Hw].
  destruct (check_ack_succ a b (write command (ser d))) as [s r].
  cbn [fst ser set_ser] in *. rewrite Ho, Hw. split; reflexivity.
Qed.

Lemma call_writes_its_line (m : method) (d : HeatingStage) :
  reads_only ->
  is_open (ser d) = true ->
  (needs_initialization m = true -> _is_initialized d = true) ->
  written (ser (fst (call m d))) = (written (ser d) ++ [command_line m])%list
  /\ is_open (ser (fst (call m d))) = true.
Proof.
  intros Hread Hopen Hinit.
  assert (Hsend : forall command a b,
            written (ser (fst (send command a b d))) = (written (ser d) ++ [command])%list
            /\ is_open (ser (fst (send command a b d))) = true).
  { intros command a b. destruct (send_written command a b d Hread) as [Ho Hw].
    split; [exact Hw|congruence]. }
  destruct m; cbn [call command_line needs_initialization] in *.
  - unfold set_settemp. rewrite Hopen, (Hinit eq_refl). cbn [negb fst]. apply Hsend.
  - unfold set_temp. rewrite Hopen, (Hinit eq_refl). cbn [negb fst]. apply Hsend.
  - unfold pid_on. rewrite Hopen, (Hinit eq_refl). cbn [negb fst]. apply Hsend.
  - unfold pid_off. rewrite Hopen. cbn [negb fst]. apply Hsend.
  - unfold is_pid_on. rewrite Hopen. cbn [negb].
    specialize (Hsend (">pr pid" ++ newline) None None).
    destruct (send (">pr pid" ++ newline) None None d) as [d' [ok comment]].
    cbn [fst] in Hsend. destruct ok; cbn [negb fst]; [|exact Hsend].
    destruct (parse_equal_sign comment) as [has value].
    destruct has; cbn [negb fst]; exact Hsend.
  - unfold temperature. rewrite Hopen. cbn [negb].
    specialize (Hsend (">pr T" ++ newline) None None).
    destruct (send (">pr T" ++ newline) None None d) as [d' [ok comment]].
    cbn [fst] in Hsend. destruct ok; cbn [negb fst]; [|exact Hsend].
    destruct (parse_equal_sign comment) as [has value].
    destruct has; cbn [negb fst]; [|exact Hsend].
    destruct (py_float value); cbn [fst]; exact Hsend.
Qed.

(** C4 (as amended).  On an open port and a stage that is not initialized,
    [set_settemp], [set_temp] and [pid_on] return
    [(False, "Heating stage is not initialized.")] and leave the stage, its
    port and the bytes written to it as they were.  [pid_off], [is_pid_on]
    and [temperature] run all the same: they write their command line, run
    the handshake, and report its result ([pid_off] as it is, the queries a
    failure as it is and a success by the value in the payload); they
    neither read nor write the initialization flag. *)
Theorem uninitialized_stage_gate (m : method) (d : HeatingStage) :
  is_open (ser d) = true ->
  _is_initialized d = false ->
  (needs_initialization m = true ->
     call m d = (d, Return (false, VStr "Heating stage is not initialized."))
     /\ written (ser (fst (call m d))) = written (ser d))
  /\ (needs_initialization m = false ->
        let after := send (command_line m) None None d in
        let ok := fst (snd after) in
        let comment := snd (snd after) in
        let found := parse_equal_sign comment in
        (forall flag : bool,
           call m (set_is_initialized flag d)
           = (set_is_initialized flag (fst (call m d)), snd (call m d)))
        /\ fst (call m d) = fst after
        /\ (reads_only ->
              written (ser (fst (call m d))) = (written (ser d) ++ [command_line m])%list)
        /\ (ok = false -> snd (call m d) = Return (false, VStr comment))
        /\ (m = m_pid_off -> snd (call m d) = Return (ok, VStr comment))
        /\ (m = m_is_pid_on -> ok = true ->
              snd (call m d)
              = Return (if fst found then (true, VBool (snd found =? "ON"))
                        else (false, VStr "Message from device did not contain PID state.")))
        /\ (m = m_temperature -> ok = true ->
              snd (call m d)
              = if fst found then
                  match py_float (snd found) with
                  | Some t => Return (true, VFloat t)
                  | None => Raise ValueError
                  end
                else Return (false, VStr "Message from device did not contain temperature."))).
Proof.
  intros Hopen Hinit. split.
  - intros Hm.
    assert (E : call m d = (d, Return (false, VStr "Heating stage is not initialized."))).
    { destruct m; try discriminate Hm; cbn [call];
        unfold set_settemp, set_temp, pid_on; rewrite Hopen, Hinit; reflexivity. }
    rewrite E. split; reflexivity.
  - intros Hm. cbv zeta. split; [|split; [|split]].
    + intros flag. destruct m; try discriminate Hm; cbn [call].
      * unfold pid_off. cbn [ser set_is_initialized]. rewrite Hopen. cbn [negb].
        rewrite send_set_is_initialized. reflexivity.
      * unfold is_pid_on. cbn [ser set_is_initialized]. rewrite Hopen. cbn [negb].
        rewrite send_set_is_initialized.
        destruct (send (">pr pid" ++ newline) None None d) as [d' [ok comment]].
        cbn [fst snd]. destruct ok; cbn [negb]; [|reflexivity].
        destruct (parse_equal_sign comment) as [has value].
        destruct has; reflexivity.
      * unfold temperature. cbn [ser set_is_initialized]. rewrite Hopen. cbn [negb].
        rewrite send_set_is_initialized.
        destruct (send (">pr T" ++ newline) None None d) as [d' [ok comment]].
        cbn [fst snd]. destruct ok; cbn [negb]; [|reflexivity].
        destruct (parse_equal_sign comment) as [has value].
        destruct has; cbn [negb]; [|reflexivity].
        destruct (py_float value); reflexivity.
    + destruct m; try discriminate Hm; cbn [call command_line].
      * unfold pid_off. rewrite Hopen. reflexivity.
      * unfold is_pid_on. rewrite Hopen. cbn [negb].
        destruct (send (">pr pid" ++ newline) None None d) as [d' [ok comment]].
        destruct ok; cbn [negb fst]; [|reflexivity].
        destruct (parse_equal_sign comment) as [has value]. destruct has; reflexivity.
      * unfold temperature. rewrite Hopen. cbn [negb].
        destruct (send (">pr T" ++ newline) None None d) as [d' [ok comment]].
        destruct ok; cbn [negb fst]; [|reflexivity].
        destruct (parse_equal_sign comment) as [has value].
        destruct has; cbn [negb fst]; [|reflexivity].
        destruct (py_float value); reflexivity.
    + intros Hread.
      apply (call_writes_its_line m d Hread Hopen). intros E. congruence.
    + destruct m; try discriminate Hm; cbn [call command_line].
      * unfold pid_off. rewrite Hopen. cbn [negb].
        destruct (send (">pidoff" ++ newline) None None d) as [d' [ok comment]].
        cbn [fst snd]. repeat split; try discriminate.
        intros ->. reflexivity.
      * unfold is_pid_on. rewrite Hopen. cbn [negb].
        destruct (send (">pr pid" ++ newline) None None d) as [d' [ok comment]].
        cbn [fst snd]. repeat split; try discriminate.
        -- intros ->. reflexivity.
        -- intros _ ->. cbn [negb].
           destruct (parse_equal_sign comment) as [has value].
           destruct has; cbn [negb fst snd]; [|reflexivity].
           destruct (value =? "ON"); reflexivity.
      * unfold temperature. rewrite Hopen. cbn [negb].
        destruct (send (">pr T" ++ newline) None None d) as [d' [ok comment]].
        cbn [fst snd]. repeat split; try discriminate.
        -- intros ->. reflexivity.
        -- intros _ ->. cbn [negb].
           destruct (parse_equal_sign comment) as [has value].
           destruct has; cbn [negb fst snd]; [|reflexivity].
           destruct (py_float value); reflexivity.
Qed.

(** C5.  When the first step of [initialize] ([set_settemp]) fails, the
    second ([pid_on]) is not performed: the stage is left as the first step
    left it, flag apart, and the result is the first step's.  When the first
    succeeds and the second fails, the result is the second step's.  In both
    cases the flag returned is [False] and [is_initialized] is [False]
    afterwards. *)
Theorem initialize_failure (d : HeatingStage) :
  let first := set_settemp (Finite 26) (set_is_initialized true d) in
  let second := pid_on (fst first) in
  (fst (snd first) = false \/ fst (snd second) = false) ->
  (fst (snd first) = false ->
     initialize d = (set_is_initialized false (fst first), (false, snd (snd first))))
  /\ (fst (snd first) = true ->
        initialize d = (set_is_initialized false (fst second), (false, snd (snd second))))
  /\ fst (snd (initialize d)) = false
  /\ _is_initialized (fst (initialize d)) = false.
Proof.
  intros first second Hfail. unfold initialize. fold first.
  destruct first as [d1 [was_set comment1]] eqn:E1. cbn [fst snd] in *.
  destruct was_set; cbn [negb].
  - fold second. destruct second as [d2 [was_on comment2]] eqn:E2. cbn [fst snd] in *.
    destruct Hfail as [Hf|Hf]; [discriminate Hf|]. subst was_on. cbn [negb].
    repeat split; try reflexivity. intros Hf; discriminate Hf.
  - repeat split; try reflexivity. intros Hf; discriminate Hf.
Qed.

(** C9.  [deinitialize] runs [set_settemp] and then, if that step
    succeeded, [pid_off].  When a step fails it returns that step's message
    and leaves [is_initialized] at [False]; when both succeed it leaves
    [is_initialized] at [False] if [reset_init_flag] is [True] and at [True]
    if it is [False]. *)
Theorem deinitialize_flag (reset_init_flag : bool) (d : HeatingStage) :
  let first := set_settemp (Finite 24) (set_is_initialized true d) in
  let second := pid_off (fst first) in
  (fst (snd first) = false ->
     deinitialize reset_init_flag d
     = (set_is_initialized false (fst first), (false, snd (snd first))))
  /\ (fst (snd first) = true -> fst (snd second) = false ->
        deinitialize reset_init_flag d
        = (set_is_initialized false (fst second), (false, snd (snd second))))
  /\ (fst (snd first) = true -> fst (snd second) = true ->
        deinitialize reset_init_flag d
        = ((if reset_init_flag then set_is_initialized false (fst second) else fst second),
           (true, "Heating stage successfully deinitialized by setting to 24 C and turning PID OFF."))
        /\ _is_initialized (fst (deinitialize reset_init_flag d)) = negb reset_init_flag)
  /\ (fst (snd first) = false \/ (fst (snd first) = true /\ fst (snd second) = false) ->
        fst (snd (deinitialize reset_init_flag d)) = false
        /\ _is_initialized (fst (deinitialize reset_init_flag d)) = false)
  /\ (fst (snd (deinitialize reset_init_flag d)) = true ->
        _is_initialized (fst (deinitialize reset_init_flag d)) = negb reset_init_flag)
  /\ (fst (snd (deinitialize reset_init_flag d)) = false ->
        _is_initialized (fst (deinitialize reset_init_flag d)) = false).
Proof.
  cbv zeta. unfold deinitialize.
  pose proof (set_settemp_is_initialized (Finite 24) (set_is_initialized true d)) as P1.
  destruct (set_settemp (Finite 24) (set_is_initialized true d)) as [d1 [was_set c1]].
  cbn [fst snd set_is_initialized _is_initialized] in *.
  destruct was_set; cbn [negb].
  - pose proof (pid_off_is_initialized d1) as P2.
    destruct (pid_off d1) as [d2 [was_off c2]]. cbn [fst snd] in *.
    destruct was_off; cbn [negb fst snd].
    + assert (Hflag : _is_initialized
                        (if reset_init_flag then set_is_initialized false d2 else d2)
                      = negb reset_init_flag).
      { destruct reset_init_flag; cbn [negb]; [reflexivity|congruence]. }
      split; [discriminate|]. split; [discriminate|].
      split; [intros _ _; split; [reflexivity|exact Hflag]|].
      split; [intros [E|[_ E]]; discriminate E|].
      split; [intros _; exact Hflag|discriminate].
    + split; [discriminate|]. split; [reflexivity|].
      split; [discriminate|]. split; [split; reflexivity|].
      split; [discriminate|reflexivity].
  - split; [reflexivity|]. split; [discriminate|].
    split; [discriminate|]. split; [split; reflexivity|].
    split; [discriminate|reflexivity].
Qed.

(** C10.  When the port is open, the handshake of [is_pid_on] succeeds and
    [parse_equal_sign] finds a value in the payload, the result is
    [(True, b)] with [b] true exactly when the value is the string ["ON"]. *)
Theorem is_pid_on_exact (d d' : HeatingStage) (comment value : string) :
  is_open (ser d) = true ->
  send (">pr pid" ++ newline) None None d = (d', (true, comment)) ->
  parse_equal_sign comment = (true, value) ->
  is_pid_on d = (d', (true, VBool (value =? "ON")))
  /\ ((value =? "ON") = true <-> value = "ON").
Proof.
  intros Hopen Hsend Hparse. split.
  - unfold is_pid_on. rewrite Hopen. cbn [negb]. rewrite Hsend. cbn [negb].
    rewrite Hparse. cbn [negb]. destruct (value =? "ON"); reflexivity.
  - apply String.eqb_eq.
Qed.

(** When the handshake of [temperature] succeeds and the value found in the
    payload is not a float literal, [float] raises and [temperature] with
    it. *)
Lemma temperature_raises (d d' : HeatingStage) (comment value : string) :
  is_open (ser d) = true ->
  send (">pr T" ++ newline) None None d = (d', (true, comment)) ->
  parse_equal_sign comment = (true, value) ->
  py_float value = None ->
  temperature d = (d', Raise ValueError).
Proof.
  intros Hopen Hsend Hparse Hfloat.
  unfold temperature. rewrite Hopen. cbn [negb]. rewrite Hsend. cbn [negb].
  rewrite Hparse. cbn [negb]. rewrite Hfloat. reflexivity.
Qed.

End HeatingStageProperties.

(** ** Properties of the commands *)

Section CommandProperties.
Context `{FloatRepr} `{Receivers}.

(** *** The store *)

Lemma update_same (r : ref) (c : command) (h : store) : update r c h r = c.
Proof. unfold update. rewrite Nat.eqb_refl. reflexivity. Qed.

Lemma update_other (r x : ref) (c : command) (h : store) :
  x <> r -> update r c h x = h x.
Proof.
  intros Hne. unfold update.
  destruct (Nat.eqb_spec x r) as [E|_]; [contradiction|reflexivity].
Qed.

Lemma update_body (r x : ref) (c : command) (h : store) :
  body c = body (h r) -> body (update r c h x) = body (h x).
Proof.
  intros Hb. unfold update. destruct (Nat.eqb_spec x r) as [->|_]; auto.
Qed.

Lemma modify_body (r x : ref) (f : command -> command) (s : state) :
  (forall c, body (f c) = body c) ->
  body (objects (modify r f s) x) = body (objects s x).
Proof. intros Hf. unfold modify. cbn [objects]. apply update_body. apply Hf. Qed.

(** *** [copy_result] *)

Lemma copy_result_self (self cmd : ref) (s : state) :
  _was_successful (objects (copy_result self cmd s) self) = _was_successful (objects s cmd)
  /\ _result_message (objects (copy_result self cmd s) self) = _result_message (objects s cmd).
Proof.
  unfold copy_result, modify. cbn [objects].
  rewrite !update_same. cbn [_was_successful _result_message set_result_message].
  split; [reflexivity|].
  destruct (Nat.eq_dec cmd self) as [->|Hne].
  - rewrite update_same. reflexivity.
  - rewrite update_other by exact Hne. reflexivity.
Qed.

Lemma copy_result_cmd (self cmd : ref) (s : state) :
  _was_successful (objects (copy_result self cmd s) cmd) = _was_successful (objects s cmd)
  /\ _result_message (objects (copy_result self cmd s) cmd) = _result_message (objects s cmd).
Proof.
  destruct (Nat.eq_dec cmd self) as [->|Hne].
  - apply copy_result_self.
  - unfold copy_result, modify. cbn [objects].
    rewrite !update_other by exact Hne. split; reflexivity.
Qed.

Lemma copy_result_body (self cmd x : ref) (s : state) :
  body (objects (copy_result self cmd s) x) = body (objects s x).
Proof.
  unfold copy_result. rewrite !modify_body by reflexivity. reflexivity.
Qed.

(** The composite mirrors the command whose outcome it copied last. *)
Lemma copy_result_mirror (self cmd : ref) (s : state) :
  _was_successful (objects (copy_result self cmd s) self)
  = _was_successful (objects (copy_result self cmd s) cmd)
  /\ _result_message (objects (copy_result self cmd s) self)
     = _result_message (objects (copy_result self cmd s) cmd).
Proof.
  destruct (copy_result_self self cmd s) as [A B].
  destruct (copy_result_cmd self cmd s) as [C D].
  split; congruence.
Qed.

(** *** The loop of [execute] *)

(** What a returning run of the loop over a non-empty list did: it attempted
    a prefix of the list up to some command [last], mirrors [last], and went
    no further only because [last] failed or was the end of the list. *)
Lemma execute_commands_returns
    (exec : ref -> state -> state * result unit) (self : ref) (l : list ref) :
  l <> [] ->
  forall s s' : state,
    execute_commands exec self l s = (s', Return tt) ->
    exists (before : list ref) (last : ref) (rest : list ref),
      l = (before ++ last :: rest)%list
      /\ attempted exec self (before ++ [last])%list s s'
      /\ _was_successful (objects s' self) = _was_successful (objects s' last)
      /\ _result_message (objects s' self) = _result_message (objects s' last)
      /\ (truthy (_was_successful (objects s' last)) = true -> rest = []).
Proof.
  induction l as [|cmd l IH]; [congruence|]. intros _ s s' Hrun.
  cbn [execute_commands] in Hrun.
  destruct (exec cmd s) as [s1 [[]|e]] eqn:Hexec; try discriminate Hrun.
  destruct (truthy (_was_successful (objects s1 cmd))) eqn:Hok; cbn [negb] in Hrun.
  - destruct l as [|cmd' l'].
    + cbn [execute_commands] in Hrun. injection Hrun as <-.
      exists [], cmd, []. destruct (copy_result_mirror self cmd s1) as [A B].
      repeat split; auto. cbn [app]. constructor. exact Hexec.
    + destruct (IH ltac:(discriminate) _ _ Hrun)
        as (before & last & rest & -> & Hatt & Hws & Hmsg & Hstop).
      exists (cmd :: before), last, rest. repeat split; auto.
      cbn [app]. econstructor; eassumption.
  - injection Hrun as <-.
    exists [], cmd, l. destruct (copy_result_mirror self cmd s1) as [A B].
    repeat split; auto.
    + cbn [app]. constructor. exact Hexec.
    + destruct (copy_result_cmd self cmd s1) as [C _]. rewrite C, Hok. discriminate.
Qed.

(** C1.  When [execute] on a composite with a non-empty list returns, the
    loop has called [execute] on the commands of the list in order up to a
    command [last] and on no other; the composite's [was_successful] and
    [result_message] are those of [last]; every command before [last] was
    successful; and commands remain after [last] only if [last] failed.  So
    after a failure the later commands are not executed and the composite
    has the state of the failed one, and when all succeed it has the state
    of the last command of the list. *)
Theorem composite_mirrors_last_attempted
    (limit : nat) (self : ref) (l : list ref) (s s' : state) :
  body (objects s self) = Composite (Some l) ->
  l <> [] ->
  execute (S limit) self s = (s', Return tt) ->
  exists (before : list ref) (last : ref) (rest : list ref),
    l = (before ++ last :: rest)%list
    /\ attempted (execute limit) self (before ++ [last])%list s s'
    /\ _was_successful (objects s' self) = _was_successful (objects s' last)
    /\ _result_message (objects s' self) = _result_message (objects s' last)
    /\ (truthy (_was_successful (objects s' last)) = true -> rest = []).
Proof.
  intros Hbody Hne Hrun. cbn [execute] in Hrun. rewrite Hbody in Hrun.
  exact (execute_commands_returns (execute limit) self l Hne s s' Hrun).
Qed.

(** C3.  [execute] on a composite whose list is empty returns at once and
    changes nothing; [was_successful] and [result_message], unknown before,
    are unknown afterwards. *)
Theorem empty_composite_stays_unknown (limit : nat) (self : ref) (s : state) :
  body (objects s self) = Composite (Some []) ->
  _was_successful (objects s self) = None ->
  _result_message (objects s self) = None ->
  exists s' : state,
    execute (S limit) self s = (s', Return tt)
    /\ s' = s
    /\ _was_successful (objects s' self) = None
    /\ _result_message (objects s' self) = None.
Proof.
  intros Hbody Hws Hmsg. exists s. cbn [execute]. rewrite Hbody.
  cbn [execute_commands]. auto.
Qed.

(** *** No call changes the class of an object or creates a list *)

Lemma execute_commands_body
    (exec : ref -> state -> state * result unit) (self : ref) :
  (forall c s s' r, exec c s = (s', r) ->
     forall x, body (objects s' x) = body (objects s x)) ->
  forall l s s' r,
    execute_commands exec self l s = (s', r) ->
    forall x, body (objects s' x) = body (objects s x).
Proof.
  intros Hexec. induction l as [|cmd l IH]; intros s s' r Hrun x.
  - cbn in Hrun. injection Hrun as <- _. reflexivity.
  - cbn [execute_commands] in Hrun.
    destruct (exec cmd s) as [s1 [[]|e]] eqn:E.
    + destruct (negb (truthy (_was_successful (objects s1 cmd)))).
      * injection Hrun as <- _. rewrite copy_result_body. eapply Hexec; eassumption.
      * rewrite (IH _ _ _ Hrun x), copy_result_body. eapply Hexec; eassumption.
    + injection Hrun as <- _. eapply Hexec; eassumption.
Qed.

Lemma execute_body (limit : nat) :
  forall self s s' r,
    execute limit self s = (s', r) ->
    forall x, body (objects s' x) = body (objects s x).
Proof.
  induction limit as [|limit IH]; intros self s s' r Hrun x;
    [injection Hrun as <- _; reflexivity|].
  cbn [execute] in Hrun.
  destruct (body (objects s self)) as [operation|[l|]] eqn:Hbody.
  - unfold execute_concrete in Hrun.
    destruct (operation (world s)) as [w res]. injection Hrun as <- _.
    rewrite !modify_body by reflexivity. reflexivity.
  - eapply execute_commands_body; [exact IH|exact Hrun].
  - injection Hrun as <- _. reflexivity.
Qed.

Lemma name_commands_body
    (get : ref -> store -> store * result string) (self : ref) :
  (forall c h h' r, get c h = (h', r) -> forall x, body (h' x) = body (h x)) ->
  forall l acc h h' r,
    name_commands get self l acc h = (h', r) ->
    forall x, body (h' x) = body (h x).
Proof.
  intros Hget. induction l as [|cmd l IH]; intros acc h h' r Hrun x.
  - cbn in Hrun. injection Hrun as <- _. reflexivity.
  - cbn [name_commands] in Hrun.
    destruct (get cmd h) as [h1 [n|e]] eqn:E.
    + rewrite (IH _ _ _ _ Hrun x). rewrite update_body by reflexivity.
      eapply Hget; eassumption.
    + injection Hrun as <- _. eapply Hget; eassumption.
Qed.

Lemma name_body (limit : nat) :
  forall self h h' r,
    name limit self h = (h', r) -> forall x, body (h' x) = body (h x).
Proof.
  induction limit as [|limit IH]; intros self h h' r Hrun x;
    [injection Hrun as <- _; reflexivity|].
  cbn [name] in Hrun.
  destruct (body (h self)) as [operation|[l|]] eqn:Hbody.
  - injection Hrun as <- _. apply update_body. reflexivity.
  - rewrite (name_commands_body (name limit) self IH _ _ _ _ _ Hrun x).
    apply update_body. reflexivity.
  - injection Hrun as <- _. apply update_body. reflexivity.
Qed.

Lemma add_command_no_list (self cmd : ref) (index : option Z) (h : store) (x : ref) :
  body (h x) = Composite None ->
  body (fst (add_command self cmd index h) x) = Composite None.
Proof.
  intros Hx. unfold add_command.
  destruct (body (h self)) as [operation|[l|]] eqn:Hbody; try exact Hx.
  assert (Hne : x <> self) by (intros ->; congruence).
  destruct index; cbn [fst]; rewrite update_other by exact Hne; exact Hx.
Qed.

Lemma remove_command_no_list (self : ref) (index : option Z) (h : store) (x : ref) :
  body (h x) = Composite None ->
  body (fst (remove_command self index h) x) = Composite None.
Proof.
  intros Hx. unfold remove_command.
  destruct (body (h self)) as [operation|[l|]] eqn:Hbody; try exact Hx.
  assert (Hne : x <> self) by (intros ->; congruence).
  destruct (list_del _ l); cbn [fst]; [rewrite update_other by exact Hne|]; exact Hx.
Qed.

Lemma perform_no_list (limit : nat) (q : request) (self : ref) (s : state) (x : ref) :
  body (objects s x) = Composite None ->
  body (objects (fst (perform limit q self s)) x) = Composite None.
Proof.
  intros Hx. destruct q; cbn [perform lift_store fst].
  - cbn [objects]. apply add_command_no_list. exact Hx.
  - cbn [objects]. apply remove_command_no_list. exact Hx.
  - destruct (execute limit self s) as [s1 [[]|e]] eqn:E; cbn [fst];
      rewrite (execute_body _ _ _ _ _ E x); exact Hx.
  - destruct (name limit self (objects s)) as [h1 [n|e]] eqn:E; cbn [fst objects];
      rewrite (name_body _ _ _ _ _ E x); exact Hx.
  - exact Hx.
  - exact Hx.
  - exact Hx.
Qed.

Lemma perform_all_no_list (limit : nat) (calls : list (ref * request)) (x : ref) :
  forall s : state,
    body (objects s x) = Composite None ->
    body (objects (perform_all limit calls s) x) = Composite None.
Proof.
  induction calls as [|[target q] calls IH]; intros s Hx; cbn [perform_all].
  - exact Hx.
  - apply IH. apply perform_no_list. exact Hx.
Qed.

(** C2.  On a composite as its constructor leaves it, [add_command],
    [remove_command], the name getter and [execute] raise AttributeError:
    the object has no [_command_list].  The name getter has assigned
    [_name] by then; the others change nothing.  No sequence of calls of the
    public interface, of this or of any other command, gives the composite a
    list. *)
Theorem fresh_composite_has_no_list
    (delay : pyval) (limit : nat) (self : ref) (s : state) :
  objects s self = CompositeCommand_init delay ->
  (forall cmd index,
     perform (S limit) (call_add_command cmd index) self s = (s, Raise AttributeError))
  /\ (forall index,
        perform (S limit) (call_remove_command index) self s = (s, Raise AttributeError))
  /\ perform (S limit) get_name self s
     = (modify self (set_name "CompositeCommand:") s, Raise AttributeError)
  /\ perform (S limit) call_execute self s = (s, Raise AttributeError)
  /\ (forall n calls,
        body (objects (perform_all n calls s) self) = Composite None).
Proof.
  intros Hfresh.
  assert (Hbody : body (objects s self) = Composite None) by (rewrite Hfresh; reflexivity).
  repeat split.
  - intros cmd index. cbn [perform]. unfold add_command. rewrite Hbody.
    destruct s; reflexivity.
  - intros index. cbn [perform]. unfold remove_command. rewrite Hbody.
    destruct s; reflexivity.
  - cbn [perform name]. rewrite Hbody. reflexivity.
  - cbn [perform execute]. rewrite Hbody. reflexivity.
  - intros n calls. apply perform_all_no_list. exact Hbody.
Qed.

(** *** Commands that are sure to set an outcome *)

Lemma forallb_pointwise {A : Type} (f g : A -> bool) (l : list A) :
  (forall a, f a = g a) -> forallb f l = forallb g l.
Proof.
  intros Hfg. induction l as [|a l IH]; cbn [forallb]; [reflexivity|].
  rewrite Hfg, IH. reflexivity.
Qed.

Lemma grounded_ext (depth : nat) (h h' : store) :
  (forall x, body (h' x) = body (h x)) ->
  forall r, grounded depth h' r = grounded depth h r.
Proof.
  intros Hext. induction depth as [|depth IH]; intros r; cbn [grounded]; rewrite Hext.
  - reflexivity.
  - destruct (body (h r)) as [operation|[l|]]; try reflexivity.
    f_equal. apply forallb_pointwise. intros c. apply IH.
Qed.

Lemma copy_result_has_outcome (self cmd : ref) (s : state) :
  has_outcome s cmd -> has_outcome (copy_result self cmd s) self.
Proof.
  intros (b & m & Hb & Hm). exists b, m.
  destruct (copy_result_self self cmd s) as [A B]. split; congruence.
Qed.

Lemma execute_commands_grounded
    (exec : ref -> state -> state * result unit) (self : ref) (depth : nat) :
  (forall c s, grounded depth (objects s) c = true ->
     exists s', exec c s = (s', Return tt)
                /\ (forall x, body (objects s' x) = body (objects s x))
                /\ has_outcome s' c) ->
  forall l s,
    l <> [] ->
    forallb (grounded depth (objects s)) l = true ->
    exists s', execute_commands exec self l s = (s', Return tt)
               /\ (forall x, body (objects s' x) = body (objects s x))
               /\ has_outcome s' self.
Proof.
  intros Hexec. induction l as [|cmd l IH]; intros s Hne Hall; [congruence|].
  cbn [forallb] in Hall. apply andb_true_iff in Hall as [Hcmd Hall].
  destruct (Hexec cmd s Hcmd) as (s1 & E & Hb1 & Hout).
  cbn [execute_commands]. rewrite E.
  assert (Hcopy : forall x, body (objects (copy_result self cmd s1) x) = body (objects s x)).
  { intros x. rewrite copy_result_body. apply Hb1. }
  destruct (negb (truthy (_was_successful (objects s1 cmd)))).
  - eexists. split; [reflexivity|]. split; [exact Hcopy|].
    apply copy_result_has_outcome. exact Hout.
  - destruct l as [|cmd' l'].
    + cbn [execute_commands]. eexists. split; [reflexivity|]. split; [exact Hcopy|].
      apply copy_result_has_outcome. exact Hout.
    + destruct (IH (copy_result self cmd s1)) as (s' & E' & Hb' & Hout').
      * discriminate.
      * rewrite <- Hall. apply forallb_pointwise. intros c. apply grounded_ext. exact Hcopy.
      * exists s'. split; [exact E'|]. split; [|exact Hout'].
        intros x. rewrite Hb'. apply Hcopy.
Qed.

Lemma execute_grounded (depth : nat) :
  forall self s,
    grounded depth (objects s) self = true ->
    exists s', execute (S depth) self s = (s', Return tt)
               /\ (forall x, body (objects s' x) = body (objects s x))
               /\ has_outcome s' self.
Proof.
  assert (Hconcrete : forall limit self s operation,
            body (objects s self) = Concrete operation ->
            exists s', execute (S limit) self s = (s', Return tt)
                       /\ (forall x, body (objects s' x) = body (objects s x))
                       /\ has_outcome s' self).
  { intros limit self s operation Hbody. cbn [execute]. rewrite Hbody.
    unfold execute_concrete.
    destruct (operation (world s)) as [w [b m]]. eexists. split; [reflexivity|]. split.
    - intros x. rewrite !modify_body by reflexivity. reflexivity.
    - exists b, m. unfold modify. cbn [objects world fst snd].
      rewrite !update_same. split; reflexivity. }
  induction depth as [|depth IH]; intros self s Hg; cbn [grounded] in Hg;
    destruct (body (objects s self)) as [operation|[l|]] eqn:Hbody; try discriminate Hg.
  - eapply Hconcrete; eassumption.
  - eapply Hconcrete; eassumption.
  - apply andb_true_iff in Hg as [Hlen Hall].
    cbn [execute]. rewrite Hbody.
    apply (execute_commands_grounded (execute (S depth)) self depth IH); [|exact Hall].
    intros ->. discriminate Hlen.
Qed.

(** C6 (as amended).  Both constructors leave [was_successful] and
    [result_message] unknown.  [execute] on a concrete command, or on a
    composite whose list is not empty and holds only concrete commands and
    such composites, returns and leaves [was_successful] a boolean, set
    together with [result_message].  [execute] on a composite whose list is
    empty returns and leaves both as they were, unknown if they were. *)
Theorem outcome_unknown_then_boolean
    (cls : string) (docstring : option string) (receiver_name : string) (delay : pyval)
    (operation : World -> World * (bool * string))
    (depth : nat) (self : ref) (s : state) :
  grounded depth (objects s) self = true ->
  _was_successful (Command_init cls docstring receiver_name delay operation) = None
  /\ _result_message (Command_init cls docstring receiver_name delay operation) = None
  /\ _was_successful (CompositeCommand_init delay) = None
  /\ _result_message (CompositeCommand_init delay) = None
  /\ (exists (s' : state) (b : bool) (m : string),
        execute (S depth) self s = (s', Return tt)
        /\ _was_successful (objects s' self) = Some b
        /\ _result_message (objects s' self) = Some m)
  /\ (forall (limit : nat) (empty : ref) (s0 : state),
        body (objects s0 empty) = Composite (Some []) ->
        execute (S limit) empty s0 = (s0, Return tt)
        /\ (_was_successful (objects s0 empty) = None ->
            _was_successful (objects (fst (execute (S limit) empty s0)) empty) = None)
        /\ (_result_message (objects s0 empty) = None ->
            _result_message (objects (fst (execute (S limit) empty s0)) empty) = None)).
Proof.
  intros Hg. split; [reflexivity|]. split; [reflexivity|].
  split; [reflexivity|]. split; [reflexivity|]. split.
  - destruct (execute_grounded depth self s Hg) as (s' & E & _ & b & m & Hb & Hm).
    exists s', b, m. auto.
  - intros limit empty s0 Hbody.
    assert (E : execute (S limit) empty s0 = (s0, Return tt)).
    { cbn [execute]. rewrite Hbody. reflexivity. }
    rewrite E. cbn [fst]. auto.
Qed.

(** *** The name of a command *)

Lemma append_nil_r (a : string) : a ++ "" = a.
Proof. induction a as [|c a IH]; cbn; [reflexivity|rewrite IH; reflexivity]. Qed.

Lemma append_assoc (a b c : string) : (a ++ b) ++ c = a ++ (b ++ c).
Proof. induction a as [|x a IH]; cbn; [reflexivity|rewrite IH; reflexivity]. Qed.

Lemma name_loop (d : dict) :
  forall acc : string, fold_left name_step d acc = acc ++ other_fragments d.
Proof.
  unfold other_fragments.
  induction d as [|[key value] d IH]; intros acc; cbn [fold_left filter map join fold_right].
  - symmetry. apply append_nil_r.
  - rewrite IH. unfold name_step, is_delay. cbn [fst].
    destruct (key =? "delay"); cbn [negb map fold_right]; [reflexivity|].
    unfold fragment. cbn [fst snd]. rewrite !append_assoc. reflexivity.
Qed.

(** C7 (as amended).  The name of a command is its class name, then every
    parameter other than [delay] as [ key=value] in the order of the
    dictionary, then [ delay=value] when the delay shows; the delay shows
    exactly when it is a string or greater than zero.  So a delay of zero
    (or below) adds nothing, and a delay of 2.5 ends the name. *)
Theorem command_name_layout (c : command) (delay : pyval) :
  dict_get "delay" (_params c) = Some delay ->
  Command_name c
  = Return (class_name c ++ other_fragments (_params c)
            ++ (if delay_shown delay then " delay=" ++ py_str delay else ""))
  /\ (delay_shown delay = true <->
        (exists text, delay = VStr text) \/ gt_zero delay = true)
  /\ (forall q : Q, gt_zero (VFloat (Finite q)) = true <-> (0 < q)%Q).
Proof.
  intros Hdelay. split; [|split].
  - unfold Command_name. rewrite Hdelay, name_loop. unfold delay_shown.
    destruct (isinstance_str delay); cbn [orb].
    + rewrite append_assoc. reflexivity.
    + destruct (gt_zero delay).
      * rewrite append_assoc. reflexivity.
      * rewrite append_nil_r. reflexivity.
  - unfold delay_shown. destruct delay as [text|f|b]; cbn [isinstance_str orb gt_zero].
    + split; [intros _; left; exists text; reflexivity|reflexivity].
    + split; [intros E; right; exact E|intros [[text E]|E]; [discriminate E|exact E]].
    + split; [intros E; right; exact E|intros [[text E]|E]; [discriminate E|exact E]].
  - intros q. cbn [gt_zero float_gt_zero]. rewrite negb_true_iff.
    split.
    + intros E. apply Qnot_le_lt. intros Hle.
      apply Qle_bool_iff in Hle. congruence.
    + intros Hlt. destruct (Qle_bool q 0) eqn:E; [|reflexivity].
      apply Qle_bool_iff in E. exfalso. exact (Qlt_not_le _ _ Hlt E).
Qed.

End CommandProperties.

(** ** The properties on the example objects *)

(** The scripted handshake only reads. *)
Lemma scripted_reads_only : reads_only.
Proof.
  intros a b s. cbn [check_ack_succ ScriptedDevice]. unfold scripted_check_ack_succ.
  destruct s as [open_ lines [|outcome rest]]; split; reflexivity.
Qed.

(** The scenario of the specification: the composite runs the first and the
    second command, skips the third, and ends with [(False, "overheat")]. *)
Lemma scenario_outcome :
  execute 2 3 scenario = (scenario_end, Return tt)
  /\ _was_successful (objects scenario_end 3) = Some false
  /\ _result_message (objects scenario_end 3) = Some "overheat"
  /\ _was_successful (objects scenario_end 2) = None
  /\ written (ser (world scenario_end)) = [">pidon" ++ newline; ">set T 30.0" ++ newline].
Proof. repeat split; vm_compute; reflexivity. Qed.

(** C1 on the scenario. *)
Lemma composite_mirrors_last_attempted_witness :
  body (objects scenario 3) = Composite (Some [0; 1; 2])
  /\ execute 2 3 scenario = (scenario_end, Return tt)
  /\ exists (before : list ref) (last : ref) (rest : list ref),
       [0; 1; 2] = (before ++ last :: rest)%list
       /\ attempted (execute 1) 3 (before ++ [last])%list scenario scenario_end
       /\ _was_successful (objects scenario_end 3) = _was_successful (objects scenario_end last)
       /\ _result_message (objects scenario_end 3) = _result_message (objects scenario_end last)
       /\ (truthy (_was_successful (objects scenario_end last)) = true -> rest = []).
Proof.
  split; [reflexivity|]. split; [reflexivity|].
  apply (composite_mirrors_last_attempted 1 3 [0; 1; 2] scenario scenario_end).
  - reflexivity.
  - discriminate.
  - reflexivity.
Defined.

(** C2 on the composite as constructed. *)
Lemma fresh_composite_has_no_list_witness :
  objects bare 0 = CompositeCommand_init no_delay
  /\ (forall cmd index,
        perform 1 (call_add_command cmd index) 0 bare = (bare, Raise AttributeError))
  /\ (forall index,
        perform 1 (call_remove_command index) 0 bare = (bare, Raise AttributeError))
  /\ perform 1 get_name 0 bare
     = (modify 0 (set_name "CompositeCommand:") bare, Raise AttributeError)
  /\ perform 1 call_execute 0 bare = (bare, Raise AttributeError)
  /\ (forall n calls,
        body (objects (perform_all n calls bare) 0) = Composite None).
Proof.
  split; [reflexivity|].
  apply (fresh_composite_has_no_list no_delay 0 0 bare). reflexivity.
Defined.

(** C3 on the composite that was given an empty list. *)
Lemma empty_composite_stays_unknown_witness :
  body (objects bare 1) = Composite (Some [])
  /\ exists s' : state,
       execute 1 1 bare = (s', Return tt)
       /\ s' = bare
       /\ _was_successful (objects s' 1) = None
       /\ _result_message (objects s' 1) = None.
Proof.
  split; [reflexivity|].
  apply (empty_composite_stays_unknown 0 1 bare); reflexivity.
Defined.

(** C4 as stated fails: on an open port and a stage that is not initialized,
    [is_pid_on] and [temperature] write their command line and return what
    the device answers. *)
Lemma queries_skip_the_gate :
  let d := stage false [(true, "pid=ON")] in
  let d' := stage false [(true, "T=26.3")] in
  is_open (ser d) = true
  /\ _is_initialized d = false
  /\ snd (call m_is_pid_on d) = Return (true, VBool true)
  /\ written (ser (fst (call m_is_pid_on d))) = [">pr pid" ++ newline]
  /\ snd (call m_is_pid_on d) <> Return (false, VStr "Heating stage is not initialized.")
  /\ snd (call m_temperature d')
     = Return (true, VFloat (Finite (7402791887490253 # 281474976710656)))
  /\ written (ser (fst (call m_temperature d'))) = [">pr T" ++ newline].
Proof.
  cbv zeta. repeat split; try (vm_compute; reflexivity).
  vm_compute. discriminate.
Qed.

(** C4 (as amended) on a stage that is not initialized: [set_temp] is
    refused and writes nothing, [is_pid_on] writes its line and reports what
    the device answers. *)
Lemma uninitialized_stage_gate_witness :
  let d := stage false [(true, "pid=ON")] in
  (is_open (ser d) = true /\ _is_initialized d = false)
  /\ (call (m_set_temp (Finite 30)) d
      = (d, Return (false, VStr "Heating stage is not initialized."))
      /\ written (ser (fst (call (m_set_temp (Finite 30)) d))) = written (ser d))
  /\ written (ser (fst (call m_is_pid_on d))) = [">pr pid" ++ newline]
  /\ snd (call m_is_pid_on d) = Return (true, VBool true).
Proof.
  cbv zeta. split; [split; reflexivity|]. split.
  - exact (proj1 (uninitialized_stage_gate (m_set_temp (Finite 30))
                    (stage false [(true, "pid=ON")]) eq_refl eq_refl) eq_refl).
  - pose proof (proj2 (uninitialized_stage_gate m_is_pid_on
                         (stage false [(true, "pid=ON")]) eq_refl eq_refl) eq_refl)
      as (_ & _ & Hwritten & _ & _ & Hanswer & _).
    split; [exact (Hwritten scripted_reads_only)|exact (Hanswer eq_refl eq_refl)].
Defined.

(** C5 on a stage whose first handshake succeeds and whose second fails. *)
Lemma initialize_failure_witness :
  let d := stage false [(true, "ok"); (false, "PID did not start")] in
  initialize d
  = (mkHeatingStage "stage" "COM3"
       (mkSerial true [">set Ts 26.0" ++ newline; ">pidon" ++ newline] [])
       false (Finite 600),
     (false, "PID did not start"))
  /\ fst (snd (initialize d)) = false
  /\ _is_initialized (fst (initialize d)) = false.
Proof.
  cbv zeta.
  pose proof (initialize_failure
                (stage false [(true, "ok"); (false, "PID did not start")])
                (or_intror eq_refl)) as (_ & Hsecond & Hflag & Hinit).
  split; [exact (Hsecond eq_refl)|]. split; [exact Hflag|exact Hinit].
Defined.

(** C6 as stated fails: after [execute] on a composite as constructed, which
    raises, and on a composite with an empty list, which returns,
    [was_successful] is still unknown. *)
Lemma composite_without_commands_stays_unknown :
  (exists s' : state,
     execute 1 0 bare = (s', Raise AttributeError)
     /\ _was_successful (objects s' 0) = None)
  /\ (exists s' : state,
        execute 1 1 bare = (s', Return tt)
        /\ _was_successful (objects s' 1) = None).
Proof. split; exists bare; split; reflexivity. Qed.

(** C6 (as amended) on a composite of a composite of two commands, and on
    the composite with an empty list. *)
Lemma outcome_unknown_then_boolean_witness :
  grounded 2 (objects nested) 3 = true
  /\ _was_successful (objects nested 3) = None
  /\ (exists (s' : state) (b : bool) (m : string),
        execute 3 3 nested = (s', Return tt)
        /\ _was_successful (objects s' 3) = Some b
        /\ _result_message (objects s' 3) = Some m)
  /\ execute 1 1 bare = (bare, Return tt)
  /\ _was_successful (objects (fst (execute 1 1 bare)) 1) = None.
Proof.
  split; [reflexivity|]. split; [reflexivity|].
  pose proof (proj2 (proj2 (proj2 (proj2
                (outcome_unknown_then_boolean "HeatingStagePidOn" None "stage" no_delay
                   pid_on 2 3 nested eq_refl))))) as [Hbool Hempty].
  split; [exact Hbool|].
  destruct (Hempty 0 1 bare eq_refl) as (Hrun & Hws & _).
  split; [exact Hrun|exact (Hws eq_refl)].
Defined.

(** C7 as stated fails: a delay of -1 is a number other than zero and does
    not show; and with a delay of zero the name holds ["delay="] when
    another parameter's key ends in it. *)
Lemma negative_delay_not_shown :
  let c := SetTemp 30 (VFloat (Finite (-1))) in
  let c0 := set_param "ramp_delay" (VFloat (Finite 5)) (SetTemp 30 no_delay) in
  dict_get "delay" (_params c) = Some (VFloat (Finite (-1)))
  /\ ~ (-1 == 0)%Q
  /\ Command_name c = Return "HeatingStageSetTemp receiver_name=stage temp=30.0"
  /\ dict_get "delay" (_params c0) = Some (VFloat (Finite 0))
  /\ Command_name c0
     = Return "HeatingStageSetTemp receiver_name=stage temp=30.0 ramp_delay=5.0"
  /\ contains "delay=" "HeatingStageSetTemp receiver_name=stage temp=30.0 ramp_delay=5.0"
     = true.
Proof.
  cbv zeta. repeat split; try (vm_compute; reflexivity).
  intros E. vm_compute in E. discriminate E.
Qed.

(** C7 (as amended) on a command with a delay of 2.5. *)
Lemma command_name_layout_witness :
  let c := SetTemp 30 (VFloat (Finite 2.5)) in
  dict_get "delay" (_params c) = Some (VFloat (Finite 2.5))
  /\ Command_name c
     = Return ("HeatingStageSetTemp" ++ " receiver_name=stage temp=30.0" ++ " delay=2.5").
Proof.
  cbv zeta. split; [reflexivity|].
  exact (proj1 (command_name_layout (SetTemp 30 (VFloat (Finite 2.5)))
                  (VFloat (Finite 2.5)) eq_refl)).
Defined.

(** C8 fails on the code: when the device completes the query with a value
    that is no number, [temperature] raises ValueError. *)
Theorem temperature_raises_on_unparseable_value :
  let d := stage true [(true, "T=abc")] in
  is_open (ser d) = true
  /\ parse_equal_sign "T=abc" = (true, "abc")
  /\ py_float "abc" = None
  /\ snd (temperature d) = Raise ValueError
  /\ snd (call m_temperature d) = Raise ValueError.
Proof.
  cbv zeta.
  assert (E : temperature (stage true [(true, "T=abc")])
              = (mkHeatingStage "stage" "COM3" (mkSerial true [">pr T" ++ newline] [])
                   true (Finite 600),
                 Raise ValueError)).
  { apply (temperature_raises _ _ "T=abc" "abc"); reflexivity. }
  repeat split; try reflexivity; cbn [call]; rewrite E; reflexivity.
Qed.

(** C9 on a deinitialization that succeeds with the reset suppressed, and
    on one whose second step fails. *)
Lemma deinitialize_flag_witness :
  let d := stage true [(true, "ok"); (true, "ok")] in
  let d' := stage true [(true, "ok"); (false, "PID is stuck")] in
  (fst (snd (deinitialize false d)) = true
   /\ _is_initialized (fst (deinitialize false d)) = true)
  /\ deinitialize true d'
     = (mkHeatingStage "stage" "COM3"
          (mkSerial true [">set Ts 24.0" ++ newline; ">pidoff" ++ newline] [])
          false (Finite 600),
        (false, "PID is stuck")).
Proof.
  cbv zeta. split.
  - split; [reflexivity|].
    exact (proj2 (proj1 (proj2 (proj2
             (deinitialize_flag false (stage true [(true, "ok"); (true, "ok")]))))
             eq_refl eq_refl)).
  - exact (proj1 (proj2
             (deinitialize_flag true (stage true [(true, "ok"); (false, "PID is stuck")])))
             eq_refl eq_refl).
Defined.

(** C10 on a payload that says [on] in lower case. *)
Lemma is_pid_on_exact_witness :
  let d := stage true [(true, "pid=on")] in
  is_open (ser d) = true
  /\ parse_equal_sign "pid=on" = (true, "on")
  /\ is_pid_on d
     = (mkHeatingStage "stage" "COM3" (mkSerial true [">pr pid" ++ newline] [])
          true (Finite 600),
        (true, VBool false)).
Proof.
  cbv zeta. split; [reflexivity|]. split; [reflexivity|].
  exact (proj1 (is_pid_on_exact (stage true [(true, "pid=on")]) _ "pid=on" "on"
                  eq_refl eq_refl eq_refl)).
Defined.

(** ** Further properties of the heating stage *)

Section HeatingStageFurther.
Context `{FloatRepr} `{ArduinoSerialDevice}.

(** X1.  On a closed port every operational method answers
    [(False, "Serial port <port> is not open. ")] and leaves the stage and
    its port untouched: nothing is written and no handshake is run. *)
Theorem closed_port_refuses (m : method) (d : HeatingStage) :
  is_open (ser d) = false ->
  call m d = (d, Return (false, VStr ("Serial port " ++ _port d ++ " is not open. "))).
Proof.
  intros Hclosed.
  destruct m; cbn [call];
    unfold set_settemp, set_temp, pid_on, pid_off, is_pid_on, temperature, not_open;
    rewrite Hclosed; reflexivity.
Qed.

(** X2.  [initialize] leaves the stage initialized exactly when it returns
    success, whatever the flag was before and whatever the port and the
    device do. *)
Theorem initialize_flag_is_result (d : HeatingStage) :
  _is_initialized (fst (initialize d)) = fst (snd (initialize d)).
Proof.
  unfold initialize.
  pose proof (set_settemp_is_initialized (Finite 26) (set_is_initialized true d)) as P1.
  destruct (set_settemp (Finite 26) (set_is_initialized true d)) as [d1 [was_set c1]].
  cbn [fst set_is_initialized _is_initialized] in P1.
  destruct was_set; cbn [negb]; [|reflexivity].
  pose proof (pid_on_is_initialized d1) as P2.
  destruct (pid_on d1) as [d2 [was_on c2]]. cbn [fst] in P2.
  destruct was_on; cbn [negb fst snd]; [congruence|reflexivity].
Qed.

(** X3.  With a handshake that only reads, a method that runs (the port is
    open, and the stage is initialized if the method asks for it) writes
    exactly one line, its own command line, after what was written before,
    and leaves the port open. *)
Theorem one_line_per_call (m : method) (d : HeatingStage) :
  reads_only ->
  is_open (ser d) = true ->
  (needs_initialization m = true -> _is_initialized d = true) ->
  written (ser (fst (call m d))) = (written (ser d) ++ [command_line m])%list
  /\ is_open (ser (fst (call m d))) = true.
Proof. exact (call_writes_its_line m d). Qed.

(** X4.  With a handshake that only reads and an open port, [initialize]
    writes [>set Ts 26.0] and then, only if that step succeeded, [>pidon];
    it writes nothing else. *)
Theorem initialize_transcript (d : HeatingStage) :
  reads_only ->
  is_open (ser d) = true ->
  written (ser (fst (initialize d)))
  = (written (ser d)
     ++ two_step_lines (m_set_settemp (Finite 26)) m_pid_on
          (fst (snd (set_settemp (Finite 26) (set_is_initialized true d)))))%list.
Proof.
  intros Hread Hopen. unfold initialize, two_step_lines.
  pose proof (call_writes_its_line (m_set_settemp (Finite 26)) (set_is_initialized true d)
                Hread Hopen (fun _ => eq_refl)) as [W1 O1].
  pose proof (set_settemp_is_initialized (Finite 26) (set_is_initialized true d)) as I1.
  cbn [call fst command_line] in W1, O1.
  destruct (set_settemp (Finite 26) (set_is_initialized true d)) as [d1 [was_set c1]].
  cbn [fst snd set_is_initialized _is_initialized ser] in *.
  destruct was_set; cbn [negb].
  - pose proof (call_writes_its_line m_pid_on d1 Hread O1 (fun _ => I1)) as [W2 _].
    cbn [call fst command_line] in W2.
    destruct (pid_on d1) as [d2 [was_on c2]]. cbn [fst] in W2.
    destruct was_on; cbn [negb fst ser set_is_initialized];
      rewrite W2, W1, <- app_assoc; reflexivity.
  - cbn [fst ser set_is_initialized]. exact W1.
Qed.

(** X5.  With a handshake that only reads and an open port, [deinitialize]
    writes [>set Ts 24.0] and then, only if that step succeeded, [>pidoff],
    with or without the reset of the flag. *)
Theorem deinitialize_transcript (reset_init_flag : bool) (d : HeatingStage) :
  reads_only ->
  is_open (ser d) = true ->
  written (ser (fst (deinitialize reset_init_flag d)))
  = (written (ser d)
     ++ two_step_lines (m_set_settemp (Finite 24)) m_pid_off
          (fst (snd (set_settemp (Finite 24) (set_is_initialized true d)))))%list.
Proof.
  intros Hread Hopen. unfold deinitialize, two_step_lines.
  pose proof (call_writes_its_line (m_set_settemp (Finite 24)) (set_is_initialized true d)
                Hread Hopen (fun _ => eq_refl)) as [W1 O1].
  cbn [call fst command_line] in W1, O1.
  destruct (set_settemp (Finite 24) (set_is_initialized true d)) as [d1 [was_set c1]].
  cbn [fst snd set_is_initialized _is_initialized ser] in *.
  destruct was_set; cbn [negb].
  - pose proof (call_writes_its_line m_pid_off d1 Hread O1
                  (fun E => ltac:(discriminate E))) as [W2 _].
    cbn [call fst command_line] in W2.
    destruct (pid_off d1) as [d2 [was_off c2]]. cbn [fst] in W2.
    destruct was_off; cbn [negb fst ser set_is_initialized];
      [destruct reset_init_flag; cbn [fst ser set_is_initialized]|];
      rewrite W2, W1, <- app_assoc; reflexivity.
  - cbn [fst ser set_is_initialized]. exact W1.
Qed.

(** X6.  In a run of [temperature] where writing to the port and the
    handshake return, and for a value of ASCII characters, [temperature]
    raises in one case only: the port is open, the handshake succeeds, the
    payload holds a value, and the value is no float literal; the exception
    is then ValueError. *)
Theorem temperature_raises_exactly (d : HeatingStage) (e : exn) :
  let reply := snd (send (">pr T" ++ newline) None None d) in
  is_ascii (snd (parse_equal_sign (snd reply))) = true ->
  snd (temperature d) = Raise e
  <-> e = ValueError
      /\ is_open (ser d) = true
      /\ fst reply = true
      /\ fst (parse_equal_sign (snd reply)) = true
      /\ py_float (snd (parse_equal_sign (snd reply))) = None.
Proof.
  cbv zeta. intros _. unfold temperature.
  destruct (is_open (ser d)); cbn [negb].
  - destruct (send (">pr T" ++ newline) None None d) as [d' [ok comment]].
    cbn [fst snd]. destruct ok; cbn [negb snd].
    + destruct (parse_equal_sign comment) as [has value]. cbn [fst snd].
      destruct has; cbn [negb snd].
      * destruct (py_float value) as [t|]; cbn [snd].
        -- split; [discriminate|intros (_ & _ & _ & _ & E); discriminate E].
        -- split; [intros E; injection E as <-; auto|intros (-> & _); reflexivity].
      * split; [discriminate|intros (_ & _ & _ & E & _); discriminate E].
    + split; [discriminate|intros (_ & _ & E & _); discriminate E].
  - cbn [snd]. split; [discriminate|intros (_ & E & _); discriminate E].
Qed.

(** X7.  The flag of a query tells the type of its payload: with [True],
    [is_pid_on] carries a boolean and [temperature] a float; with [False],
    both carry a message. *)
Theorem query_payload_follows_flag (d : HeatingStage) :
  (fst (snd (is_pid_on d)) = true -> exists b, snd (snd (is_pid_on d)) = VBool b)
  /\ (fst (snd (is_pid_on d)) = false -> exists text, snd (snd (is_pid_on d)) = VStr text)
  /\ (forall ok payload,
        snd (temperature d) = Return (ok, payload) ->
        if ok then exists t, payload = VFloat t else exists text, payload = VStr text).
Proof.
  split; [|split].
  - unfold is_pid_on. destruct (negb (is_open (ser d))); [discriminate|].
    destruct (send (">pr pid" ++ newline) None None d) as [d' [ok comment]].
    destruct ok; cbn [negb]; [|discriminate].
    destruct (parse_equal_sign comment) as [has value].
    destruct has; cbn [negb fst snd]; [|discriminate]. intros _. eexists; reflexivity.
  - unfold is_pid_on. destruct (negb (is_open (ser d))); [intros _; eexists; reflexivity|].
    destruct (send (">pr pid" ++ newline) None None d) as [d' [ok comment]].
    destruct ok; cbn [negb]; [|intros _; eexists; reflexivity].
    destruct (parse_equal_sign comment) as [has value].
    destruct has; cbn [negb fst snd]; [discriminate|intros _; eexists; reflexivity].
  - intros ok payload. unfold temperature.
    destruct (negb (is_open (ser d))).
    { cbn [snd]. intros E. injection E as <- <-. eexists; reflexivity. }
    destruct (send (">pr T" ++ newline) None None d) as [d' [ok' comment]].
    destruct ok'; cbn [negb].
    + destruct (parse_equal_sign comment) as [has value].
      destruct has; cbn [negb].
      * destruct (py_float value) as [t|]; cbn [snd]; [|discriminate].
        intros E. injection E as <- <-. eexists; reflexivity.
      * cbn [snd]. intros E. injection E as <- <-. eexists; reflexivity.
    + cbn [snd]. intros E. injection E as <- <-. eexists; reflexivity.
Qed.

(** X8.  On a closed port [initialize] and [deinitialize] report that the
    port is not open, write nothing, and leave the stage not initialized,
    also a stage that was initialized and also with the reset of the flag
    suppressed. *)
Theorem two_steps_on_closed_port (reset_init_flag : bool) (d : HeatingStage) :
  is_open (ser d) = false ->
  initialize d
  = (set_is_initialized false d, (false, "Serial port " ++ _port d ++ " is not open. "))
  /\ deinitialize reset_init_flag d
     = (set_is_initialized false d, (false, "Serial port " ++ _port d ++ " is not open. ")).
Proof.
  intros Hclosed. unfold initialize, deinitialize, set_settemp, not_open.
  cbn [ser set_is_initialized _port]. rewrite Hclosed. cbn [negb].
  split; reflexivity.
Qed.

End HeatingStageFurther.

(** ** Further properties of the commands *)

Section CommandsFurther.
Context `{FloatRepr} `{Receivers}.

(** *** Lists *)

Lemma around_length {A : Type} (a b : list A) (x : A) (n : nat) :
  length a = n ->
  (firstn n (a ++ x :: b) ++ skipn (S n) (a ++ x :: b) = a ++ b)%list.
Proof.
  intros <-. induction a as [|y a IH]; cbn [length app firstn skipn].
  - reflexivity.
  - f_equal. exact IH.
Qed.

Lemma list_insert_split {A : Type} (index : Z) (x : A) (l : list A) :
  exists a b : list A,
    l = (a ++ b)%list /\ list_insert index x l = (a ++ x :: b)%list
    /\ ((0 <= index <= Z.of_nat (length l))%Z -> length a = Z.to_nat index).
Proof.
  unfold list_insert.
  set (i := if (index <? 0)%Z then Z.max 0 (index + Z.of_nat (length l))
            else Z.min index (Z.of_nat (length l))).
  exists (firstn (Z.to_nat i) l), (skipn (Z.to_nat i) l).
  split; [symmetry; apply firstn_skipn|]. split; [reflexivity|].
  intros Hrange. rewrite firstn_length_le.
  - subst i. destruct (Z.ltb_spec index 0); [lia|]. f_equal. lia.
  - subst i. destruct (Z.ltb_spec index 0); lia.
Qed.

Lemma list_del_in_range {A : Type} (index : Z) (l : list A) :
  let len := Z.of_nat (length l) in
  (- len <= index < len)%Z ->
  exists l', list_del index l = Return l' /\ S (length l') = length l.
Proof.
  cbv zeta. intros Hrange. unfold list_del.
  set (i := if (index <? 0)%Z then (index + Z.of_nat (length l))%Z else index).
  assert (Hi : (0 <= i < Z.of_nat (length l))%Z).
  { subst i. destruct (Z.ltb_spec index 0); lia. }
  destruct (Z.ltb_spec i 0); [lia|]. destruct (Z.leb_spec (Z.of_nat (length l)) i); [lia|].
  cbn [orb]. eexists. split; [reflexivity|].
  rewrite length_app, firstn_length_le, length_skipn by lia. lia.
Qed.

Lemma list_del_out_of_range {A : Type} (index : Z) (l : list A) :
  let len := Z.of_nat (length l) in
  (index < - len \/ len <= index)%Z ->
  list_del index l = Raise IndexError.
Proof.
  cbv zeta. intros Hrange. unfold list_del.
  destruct (Z.ltb_spec index 0).
  - destruct (Z.ltb_spec (index + Z.of_nat (length l)) 0); [reflexivity|lia].
  - destruct (Z.ltb_spec index 0); [lia|].
    destruct (Z.leb_spec (Z.of_nat (length l)) index); [reflexivity|lia].
Qed.

Lemma list_del_at {A : Type} (a b : list A) (x : A) (index : Z) :
  (index = Z.of_nat (length a) \/ index = - Z.of_nat (S (length b)))%Z ->
  list_del index (a ++ x :: b) = Return (a ++ b)%list.
Proof.
  intros Hindex. unfold list_del. rewrite length_app. cbn [length].
  set (i := if (index <? 0)%Z then (index + Z.of_nat (length a + S (length b)))%Z
            else index).
  assert (Hi : i = Z.of_nat (length a)).
  { subst i. destruct (Z.ltb_spec index 0); lia. }
  rewrite Hi. destruct (Z.ltb_spec (Z.of_nat (length a)) 0); [lia|].
  destruct (Z.leb_spec (Z.of_nat (length a + S (length b))) (Z.of_nat (length a))); [lia|].
  cbn [orb]. rewrite Nat2Z.id. f_equal. apply around_length. reflexivity.
Qed.

Lemma add_command_list (self cmd : ref) (index : option Z) (h : store) (l : list ref) :
  body (h self) = Composite (Some l) ->
  add_command self cmd index h
  = (update self (set_command_list
                    match index with
                    | None => (l ++ [cmd])%list
                    | Some i => list_insert i cmd l
                    end (h self)) h,
     Return tt).
Proof. intros Hbody. unfold add_command. rewrite Hbody. destruct index; reflexivity. Qed.

(** X9.  [add_command(command, index)] followed by [remove_command(index)]
    with the same index gives the list back, when the index is left out on
    both or lies between 0 and the length of the list. *)
Theorem add_then_remove_restores
    (self cmd : ref) (index : option Z) (h : store) (l : list ref) :
  body (h self) = Composite (Some l) ->
  (forall i, index = Some i -> (0 <= i <= Z.of_nat (length l))%Z) ->
  snd (remove_command self index (fst (add_command self cmd index h))) = Return tt
  /\ body (fst (remove_command self index (fst (add_command self cmd index h))) self)
     = Composite (Some l).
Proof.
  intros Hbody Hrange. rewrite (add_command_list _ _ _ _ _ Hbody). cbn [fst].
  unfold remove_command. rewrite update_same. cbn [body set_command_list].
  assert (E : list_del match index with None => (-1)%Z | Some i => i end
                match index with
                | None => (l ++ [cmd])%list
                | Some i => list_insert i cmd l
                end = Return l).
  { destruct index as [i|].
    - destruct (list_insert_split i cmd l) as (a & b & -> & -> & Hlen).
      apply list_del_at. left. rewrite (Hlen (Hrange i eq_refl)).
      specialize (Hrange i eq_refl). lia.
    - rewrite <- (app_nil_r l) at 2. apply list_del_at. right. reflexivity. }
  rewrite E. cbn [fst snd]. rewrite update_same. split; reflexivity.
Qed.

(** X10.  [add_command(command, -1)] does not append: it puts the command
    before the last one, so that the [remove_command()] that follows removes
    the command that was last and keeps the new one. *)
Theorem add_at_minus_one_is_not_append
    (self cmd last : ref) (h : store) (l : list ref) :
  body (h self) = Composite (Some (l ++ [last])%list) ->
  body (fst (add_command self cmd (Some (-1)%Z) h) self)
  = Composite (Some (l ++ [cmd; last])%list)
  /\ body (fst (remove_command self None (fst (add_command self cmd (Some (-1)%Z) h))) self)
     = Composite (Some (l ++ [cmd])%list).
Proof.
  intros Hbody. rewrite (add_command_list _ _ _ _ _ Hbody). cbn [fst].
  assert (E : list_insert (-1) cmd (l ++ [last]) = (l ++ [cmd; last])%list).
  { unfold list_insert. rewrite length_app. cbn [length Z.ltb Z.compare].
    replace (Z.to_nat (Z.max 0 (-1 + Z.of_nat (length l + 1)))) with (length l) by lia.
    rewrite firstn_app, Nat.sub_diag, firstn_all. cbn [firstn].
    rewrite skipn_app, Nat.sub_diag, skipn_all. cbn [skipn app].
    rewrite app_nil_r. reflexivity. }
  rewrite E, update_same. split; [reflexivity|].
  unfold remove_command. rewrite update_same. cbn [body set_command_list].
  replace (l ++ [cmd; last])%list with ((l ++ [cmd]) ++ last :: [])%list
    by (rewrite <- app_assoc; reflexivity).
  rewrite list_del_at by (right; reflexivity).
  cbn [fst]. rewrite update_same, app_nil_r. reflexivity.
Qed.


(** X12.  On a composite with a list, [remove_command] raises IndexError
    exactly when the index, -1 if left out, is outside the list counted from
    either end, as it always is for an empty list; the store is then as
    before.  Otherwise the list loses one command. *)
Theorem remove_command_bounds
    (self : ref) (index : option Z) (h : store) (l : list ref) :
  body (h self) = Composite (Some l) ->
  let i := match index with None => (-1)%Z | Some i => i end in
  let len := Z.of_nat (length l) in
  ((i < - len \/ len <= i)%Z -> remove_command self index h = (h, Raise IndexError))
  /\ ((- len <= i < len)%Z ->
        exists l', snd (remove_command self index h) = Return tt
                   /\ body (fst (remove_command self index h) self) = Composite (Some l')
                   /\ S (length l') = length l)
  /\ (l = [] -> remove_command self index h = (h, Raise IndexError)).
Proof.
  intros Hbody. cbv zeta.
  assert (Hout : (match index with None => (-1)%Z | Some i => i end
                  < - Z.of_nat (length l)
                  \/ Z.of_nat (length l) <= match index with None => (-1)%Z | Some i => i end)%Z
                 -> remove_command self index h = (h, Raise IndexError)).
  { intros Hrange. unfold remove_command. rewrite Hbody.
    rewrite (list_del_out_of_range _ l Hrange). reflexivity. }
  split; [exact Hout|]. split.
  - intros Hrange. unfold remove_command. rewrite Hbody.
    destruct (list_del_in_range _ l Hrange) as (l' & -> & Hlen).
    exists l'. cbn [fst snd]. rewrite update_same. auto.
  - intros ->. apply Hout. cbn [length]. lia.
Qed.

(** *** Sequencing *)

(** X13.  The loop of [execute] composes: after a run over a first part of
    the list that returned, the run over the whole list goes on with the
    rest from the state reached if the composite was left successful, and
    ends there, without executing the rest, if it was not. *)
Theorem execute_commands_app
    (exec : ref -> state -> state * result unit) (self : ref) (l1 l2 : list ref) :
  l1 <> [] ->
  forall s s1 : state,
    execute_commands exec self l1 s = (s1, Return tt) ->
    execute_commands exec self (l1 ++ l2) s
    = if truthy (_was_successful (objects s1 self))
      then execute_commands exec self l2 s1
      else (s1, Return tt).
Proof.
  induction l1 as [|cmd l1 IH]; [congruence|]. intros _ s s1 Hrun.
  cbn [execute_commands app] in *.
  destruct (exec cmd s) as [sa [[]|e]]; [|discriminate Hrun].
  destruct (copy_result_self self cmd sa) as [Hws _].
  destruct (truthy (_was_successful (objects sa cmd))) eqn:Hok; cbn [negb] in *.
  - destruct l1 as [|cmd' l1'].
    + cbn [execute_commands] in Hrun. injection Hrun as <-.
      rewrite Hws, Hok. reflexivity.
    + apply IH; [discriminate|exact Hrun].
  - injection Hrun as <-. rewrite Hws, Hok. reflexivity.
Qed.

(** X14.  A composite whose list starts with the composite itself never
    gets anywhere: whatever the recursion limit, [execute] raises
    RecursionError and has changed nothing. *)
Theorem self_containing_composite_overflows
    (self : ref) (rest : list ref) (s : state) :
  body (objects s self) = Composite (Some (self :: rest)) ->
  forall limit : nat, execute limit self s = (s, Raise RecursionError).
Proof.
  intros Hbody. induction limit as [|limit IH]; [reflexivity|].
  cbn [execute]. rewrite Hbody. cbn [execute_commands]. rewrite IH. reflexivity.
Qed.

(** *** What the calls leave alone *)

Lemma same_but_outcome_refl (c : command) : same_but_outcome c c.
Proof. repeat split. Qed.

Lemma same_but_outcome_trans (a b c : command) :
  same_but_outcome a b -> same_but_outcome b c -> same_but_outcome a c.
Proof.
  unfold same_but_outcome. intros (A1 & A2 & A3 & A4 & A5) (B1 & B2 & B3 & B4 & B5).
  repeat split; congruence.
Qed.

Lemma modify_same_but_outcome (r x : ref) (f : command -> command) (s : state) :
  (forall c, same_but_outcome (f c) c) ->
  same_but_outcome (objects (modify r f s) x) (objects s x).
Proof.
  intros Hf. unfold modify, update. cbn [objects].
  destruct (Nat.eqb_spec x r) as [->|_]; [apply Hf|apply same_but_outcome_refl].
Qed.

Lemma copy_result_same_but_outcome (self cmd x : ref) (s : state) :
  same_but_outcome (objects (copy_result self cmd s) x) (objects s x).
Proof.
  unfold copy_result.
  eapply same_but_outcome_trans; apply modify_same_but_outcome;
    intros c; repeat split.
Qed.

Lemma execute_commands_outcome_only
    (exec : ref -> state -> state * result unit) (self : ref) :
  (forall c s x, same_but_outcome (objects (fst (exec c s)) x) (objects s x)) ->
  forall l s x,
    same_but_outcome (objects (fst (execute_commands exec self l s)) x) (objects s x).
Proof.
  intros Hexec. induction l as [|cmd l IH]; intros s x; cbn [execute_commands].
  - apply same_but_outcome_refl.
  - pose proof (Hexec cmd s) as Hc.
    destruct (exec cmd s) as [s1 [[]|e]]; cbn [fst] in Hc.
    + assert (Hcopy : same_but_outcome (objects (copy_result self cmd s1) x) (objects s x)).
      { eapply same_but_outcome_trans; [apply copy_result_same_but_outcome|apply Hc]. }
      destruct (negb (truthy (_was_successful (objects s1 cmd)))); cbn [fst].
      * exact Hcopy.
      * eapply same_but_outcome_trans; [apply IH|exact Hcopy].
    + cbn [fst]. apply Hc.
Qed.

Lemma execute_outcome_only (limit : nat) :
  forall self s x,
    same_but_outcome (objects (fst (execute limit self s)) x) (objects s x).
Proof.
  induction limit as [|limit IH]; intros self s x; cbn [execute].
  - apply same_but_outcome_refl.
  - destruct (body (objects s self)) as [operation|[l|]].
    + unfold execute_concrete. destruct (operation (world s)) as [w r]. cbn [fst].
      eapply same_but_outcome_trans; [apply modify_same_but_outcome; intros c; repeat split|].
      eapply same_but_outcome_trans; [apply modify_same_but_outcome; intros c; repeat split|].
      apply same_but_outcome_refl.
    + apply execute_commands_outcome_only. exact IH.
    + apply same_but_outcome_refl.
Qed.

(** X15.  [execute] changes nothing of any command but its outcome: class,
    docstring, parameters, cached name and list are as before, whether the
    call returns or raises. *)
Theorem execute_changes_outcomes_only (limit : nat) (self x : ref) (s : state) :
  same_but_outcome (objects (fst (execute limit self s)) x) (objects s x).
Proof. apply execute_outcome_only. Qed.

Lemma same_but_name_refl (c : command) : same_but_name c c.
Proof. repeat split. Qed.

Lemma same_but_name_trans (a b c : command) :
  same_but_name a b -> same_but_name b c -> same_but_name a c.
Proof.
  unfold same_but_name.
  intros (A1 & A2 & A3 & A4 & A5 & A6) (B1 & B2 & B3 & B4 & B5 & B6).
  repeat split; congruence.
Qed.

Lemma update_set_name (r x : ref) (n : string) (h : store) :
  same_but_name (update r (set_name n (h r)) h x) (h x).
Proof.
  unfold update. destruct (Nat.eqb_spec x r) as [->|_]; repeat split.
Qed.

Lemma name_commands_name_only
    (get : ref -> store -> store * result string) (self : ref) :
  (forall c h x, same_but_name (fst (get c h) x) (h x)) ->
  forall l acc h x, same_but_name (fst (name_commands get self l acc h) x) (h x).
Proof.
  intros Hget. induction l as [|cmd l IH]; intros acc h x; cbn [name_commands].
  - apply same_but_name_refl.
  - pose proof (Hget cmd h) as Hc.
    destruct (get cmd h) as [h1 [n|e]]; cbn [fst] in Hc.
    + eapply same_but_name_trans; [apply IH|].
      eapply same_but_name_trans; [apply update_set_name|apply Hc].
    + cbn [fst]. apply Hc.
Qed.

Lemma name_name_only (limit : nat) :
  forall self h x, same_but_name (fst (name limit self h) x) (h x).
Proof.
  induction limit as [|limit IH]; intros self h x; cbn [name].
  - apply same_but_name_refl.
  - destruct (body (h self)) as [operation|[l|]]; cbn [fst].
    + apply update_set_name.
    + eapply same_but_name_trans; [apply name_commands_name_only; exact IH|].
      apply update_set_name.
    + apply update_set_name.
Qed.

(** X16.  The name getter changes nothing of any command but the cached
    [_name]: outcomes, parameters and lists are as before, whether the
    getter returns or raises. *)
Theorem name_changes_names_only (limit : nat) (self x : ref) (h : store) :
  same_but_name (fst (name limit self h) x) (h x).
Proof. apply name_name_only. Qed.

(** *** Names *)

Lemma Command_name_same (c c' : command) :
  class_name c = class_name c' -> _params c = _params c' ->
  Command_name c = Command_name c' /\ Command_name_attr c = Command_name_attr c'.
Proof.
  intros Hc Hp. unfold Command_name_attr, Command_name. rewrite Hc, Hp. split; reflexivity.
Qed.

Lemma Command_name_returns (c : command) :
  dict_get "delay" (_params c) <> None ->
  Command_name c = Return (Command_name_attr c).
Proof.
  intros Hdelay. unfold Command_name_attr.
  destruct (Command_name c) as [n|e] eqn:E; [reflexivity|].
  unfold Command_name in E.
  destruct (dict_get "delay" (_params c)) as [delay|]; [|congruence].
  destruct (isinstance_str delay); [discriminate E|].
  destruct (gt_zero delay); discriminate E.
Qed.

Lemma name_commands_layout (limit : nat) (self : ref) (h : store) (l : list ref) :
  Forall (listable h) l ->
  forall (acc : string) (h1 : store),
    (forall x, same_but_name (h1 x) (h x)) ->
    _name (h1 self) = Some acc ->
    exists h',
      name_commands (name (S limit)) self l acc h1
      = (h', Return (acc ++ join (map (listed_name h) l)))
      /\ _name (h' self) = Some (acc ++ join (map (listed_name h) l)).
Proof.
  induction 1 as [|c l [[operation Hbody] Hdelay] _ IH]; intros acc h1 Hsame Hname.
  - cbn [name_commands map join fold_right]. rewrite append_nil_r. eauto.
  - cbn [name_commands name].
    destruct (Hsame c) as (Hcls & _ & Hparams & _ & _ & Hb).
    rewrite Hb, Hbody.
    destruct (Command_name_same (h1 c) (h c) Hcls Hparams) as [E1 E2].
    rewrite E1, (Command_name_returns (h c) Hdelay).
    set (h2 := update c (set_name (Command_name_attr (h1 c)) (h1 c)) h1).
    set (acc' := acc ++ " " ++ Command_name_attr (h c) ++ ";").
    destruct (IH acc' (update self (set_name acc' (h2 self)) h2)) as (h' & E & Hn).
    + intros x. eapply same_but_name_trans; [apply update_set_name|].
      eapply same_but_name_trans; [apply update_set_name|apply Hsame].
    + rewrite update_same. reflexivity.
    + exists h'. cbn [map join fold_right]. fold (join (map (listed_name h) l)).
      unfold listed_name at 1 3.
      assert (Eacc : acc' ++ join (map (listed_name h) l)
                     = acc ++ (" " ++ Command_name_attr (h c) ++ ";")
                           ++ join (map (listed_name h) l)).
      { subst acc'. rewrite !append_assoc. reflexivity. }
      rewrite <- Eacc. split; [exact E|exact Hn].
Qed.

(** X17.  The name of a composite whose list holds concrete commands, each
    with a [delay] parameter, is ["CompositeCommand:"] followed, for each
    command of the list in order, by a space, its name and a semicolon; the
    getter leaves that string in [_name]. *)
Theorem composite_name_layout (limit : nat) (self : ref) (h : store) (l : list ref) :
  body (h self) = Composite (Some l) ->
  Forall (listable h) l ->
  exists h',
    name (S (S limit)) self h
    = (h', Return ("CompositeCommand:" ++ join (map (listed_name h) l)))
    /\ _name (h' self) = Some ("CompositeCommand:" ++ join (map (listed_name h) l)).
Proof.
  intros Hbody Hall. cbn [name]. rewrite Hbody.
  apply (name_commands_layout limit self h l Hall).
  - intros x. apply update_set_name.
  - rewrite update_same. reflexivity.
Qed.

(** X18.  The name of a command as [Command.__init__] leaves it is the
    class name, the receiver's name and then the delay when it shows; the
    getter does not raise. *)
Theorem constructed_command_name
    (cls : string) (docstring : option string) (receiver_name : string) (delay : pyval)
    (operation : World -> World * (bool * string)) :
  Command_name (Command_init cls docstring receiver_name delay operation)
  = Return (cls ++ " receiver_name=" ++ receiver_name
            ++ (if delay_shown delay then " delay=" ++ py_str delay else "")).
Proof.
  unfold Command_name, Command_init, delay_shown.
  cbn [_params class_name dict_set dict_get fold_left name_step String.eqb Ascii.eqb
       Bool.eqb negb py_str].
  destruct (isinstance_str delay); cbn [orb].
  - rewrite !append_assoc. reflexivity.
  - destruct (gt_zero delay); rewrite ?append_assoc, ?append_nil_r; reflexivity.
Qed.

End CommandsFurther.

(** ** The further properties on the example objects *)

(** X1 on [set_temp] with the port closed. *)
Lemma closed_port_refuses_witness :
  is_open (ser unplugged) = false
  /\ call (m_set_temp (Finite 30)) unplugged
     = (unplugged, Return (false, VStr "Serial port COM3 is not open. ")).
Proof.
  split; [reflexivity|].
  exact (closed_port_refuses (m_set_temp (Finite 30)) unplugged eq_refl).
Defined.

(** X3 on [temperature] of a stage that is not initialized. *)
Lemma one_line_per_call_witness :
  let d := stage false [(true, "T=26.3")] in
  written (ser (fst (call m_temperature d))) = [">pr T" ++ newline]
  /\ is_open (ser (fst (call m_temperature d))) = true.
Proof.
  cbv zeta.
  exact (one_line_per_call m_temperature (stage false [(true, "T=26.3")])
           scripted_reads_only eq_refl (fun E => False_ind _ (diff_false_true E))).
Defined.

(** X4 on a stage whose first handshake fails. *)
Lemma initialize_transcript_witness :
  let d := stage false [(false, "busy")] in
  written (ser (fst (initialize d))) = [">set Ts 26.0" ++ newline].
Proof.
  cbv zeta.
  exact (initialize_transcript (stage false [(false, "busy")]) scripted_reads_only eq_refl).
Defined.

(** X5 on a stage whose handshakes succeed. *)
Lemma deinitialize_transcript_witness :
  let d := stage true [(true, "ok"); (true, "ok")] in
  written (ser (fst (deinitialize false d)))
  = [">set Ts 24.0" ++ newline; ">pidoff" ++ newline].
Proof.
  cbv zeta.
  exact (deinitialize_transcript false (stage true [(true, "ok"); (true, "ok")])
           scripted_reads_only eq_refl).
Defined.

(** X6 on a stage whose device answers with a value that is no number. *)
Lemma temperature_raises_exactly_witness :
  let d := stage true [(true, "T=abc")] in
  is_ascii "abc" = true
  /\ (forall e, snd (temperature d) = Raise e -> e = ValueError)
  /\ snd (temperature d) = Raise ValueError.
Proof.
  cbv zeta. split; [reflexivity|]. split.
  - intros e E.
    exact (proj1 (proj1 (temperature_raises_exactly (stage true [(true, "T=abc")]) e
                           eq_refl) E)).
  - apply (proj2 (temperature_raises_exactly (stage true [(true, "T=abc")]) ValueError
                    eq_refl)).
    repeat split.
Defined.

(** X8 on an initialized stage with the port closed. *)
Lemma two_steps_on_closed_port_witness :
  _is_initialized unplugged = true
  /\ initialize unplugged
     = (set_is_initialized false unplugged, (false, "Serial port COM3 is not open. "))
  /\ deinitialize false unplugged
     = (set_is_initialized false unplugged, (false, "Serial port COM3 is not open. ")).
Proof.
  split; [reflexivity|].
  exact (two_steps_on_closed_port false unplugged eq_refl).
Defined.

(** X9 on the composite of the scenario, at index 1. *)
Lemma add_then_remove_restores_witness :
  let h := objects scenario in
  list_of (fst (add_command 3 7 (Some 1%Z) h)) = Composite (Some [0; 7; 1; 2])
  /\ snd (remove_command 3 (Some 1%Z) (fst (add_command 3 7 (Some 1%Z) h))) = Return tt
  /\ list_of (fst (remove_command 3 (Some 1%Z) (fst (add_command 3 7 (Some 1%Z) h))))
     = Composite (Some [0; 1; 2]).
Proof.
  cbv zeta. split; [reflexivity|].
  apply (add_then_remove_restores 3 7 (Some 1%Z) (objects scenario) [0; 1; 2]).
  - reflexivity.
  - intros i E. injection E as <-. cbn. lia.
Defined.

(** X10 on the composite of the scenario. *)
Lemma add_at_minus_one_is_not_append_witness :
  let h := objects scenario in
  list_of (fst (add_command 3 7 (Some (-1)%Z) h)) = Composite (Some [0; 1; 7; 2])
  /\ list_of (fst (remove_command 3 None (fst (add_command 3 7 (Some (-1)%Z) h))))
     = Composite (Some [0; 1; 7]).
Proof.
  cbv zeta.
  exact (add_at_minus_one_is_not_append 3 7 2 (objects scenario) [0; 1] eq_refl).
Defined.


(** X12 on the composite of the scenario and on the one with an empty
    list. *)
Lemma remove_command_bounds_witness :
  remove_command 3 (Some 3%Z) (objects scenario) = (objects scenario, Raise IndexError)
  /\ remove_command 1 None (objects bare) = (objects bare, Raise IndexError).
Proof.
  split.
  - apply (proj1 (remove_command_bounds 3 (Some 3%Z) (objects scenario) [0; 1; 2] eq_refl)).
    right. cbn. lia.
  - exact (proj2 (proj2 (remove_command_bounds 1 None (objects bare) [] eq_refl)) eq_refl).
Defined.

(** X13 on the scenario, split after its first command. *)
Lemma execute_commands_app_witness :
  let s1 := fst (execute_commands (execute 1) 3 [0] scenario) in
  truthy (_was_successful (objects s1 3)) = true
  /\ execute_commands (execute 1) 3 ([0] ++ [1; 2]) scenario
     = if truthy (_was_successful (objects s1 3))
       then execute_commands (execute 1) 3 [1; 2] s1
       else (s1, Return tt).
Proof.
  cbv zeta. split; [reflexivity|].
  apply (execute_commands_app (execute 1) 3 [0] [1; 2]).
  - discriminate.
  - reflexivity.
Defined.

(** X14 on a composite that holds itself. *)
Lemma self_containing_composite_overflows_witness :
  body (objects looped 0) = Composite (Some [0; 1])
  /\ forall limit : nat, execute limit 0 looped = (looped, Raise RecursionError).
Proof.
  split; [reflexivity|].
  exact (self_containing_composite_overflows 0 [1] looped eq_refl).
Defined.

Lemma scenario_listable : Forall (listable (objects scenario)) [0; 1; 2].
Proof.
  repeat constructor; try (eexists; reflexivity); discriminate.
Qed.

(** X17 on the composite of the scenario. *)
Lemma composite_name_layout_witness :
  exists h',
    name 2 3 (objects scenario)
    = (h', Return ("CompositeCommand:"
                   ++ " HeatingStagePidOn receiver_name=stage;"
                   ++ " HeatingStageSetTemp receiver_name=stage temp=30.0;"
                   ++ " HeatingStagePidOff receiver_name=stage;"))
    /\ _name (h' 3)
       = Some ("CompositeCommand:"
               ++ " HeatingStagePidOn receiver_name=stage;"
               ++ " HeatingStageSetTemp receiver_name=stage temp=30.0;"
               ++ " HeatingStagePidOff receiver_name=stage;").
Proof.
  exact (composite_name_layout 0 3 (objects scenario) [0; 1; 2] eq_refl scenario_listable).
Defined.
